(** * totote05/telegram: the long-polling loop and the command registry

    A shallow embedding of [bot/bot.go], [bot/command.go] and the data types
    of package [bot], followed by the properties of the offset cursor, of
    command extraction and of the error paths of [Start].

    Conventions of the embedding
    - Go [string] is a byte sequence: Rocq [string] (one [ascii] per byte).
    - Go [int] is the 64-bit two's-complement integer of the usual targets:
      a [Z] kept in range by [wrap_int].
    - A Go pointer that may be nil is an [option]; dereferencing [None]
      panics.
    - Side effects (log lines, HTTP requests, sleeps, goroutine spawns,
      handler invocations) are recorded, in program order, in a trace of
      [event]s carried by the monad [M]; a panic cuts the computation short
      and keeps the events emitted before it.
    - What the program cannot decide itself (the result of one HTTP
      exchange, the state of the context) is an explicit argument. *)

From Stdlib Require Import ZArith NArith String Ascii List Bool Sorted Lia.
From stdpp Require Import base option list gmap strings.

Local Open Scope Z_scope.

(* ===================================================================== *)
(** ** Package [strings] and [unicode/utf8], as far as [Execute] uses them *)
(* ===================================================================== *)

Module strings.

(** Builds a byte string from byte values. *)
Definition of_bytes (l : list N) : string :=
  fold_right (fun n s => String (ascii_of_N n) s) EmptyString l.

(** [utf8.RuneError], U+FFFD. *)
Definition RuneError : N := 0xFFFD%N.

(** [unicode.IsSpace]: the Latin-1 cases written out, then the
    [White_Space] range table. *)
Definition IsSpace (r : N) : bool :=
  if (r <=? 0xFF)%N then
    ((0x09 <=? r) && (r <=? 0x0D) || (r =? 0x20) || (r =? 0x85) || (r =? 0xA0))%N
  else
    ((r =? 0x1680) || (0x2000 <=? r) && (r <=? 0x200A)
     || (0x2028 <=? r) && (r <=? 0x2029) || (r =? 0x202F)
     || (r =? 0x205F) || (r =? 0x3000))%N.

(** The [first] and [acceptRanges] tables of [unicode/utf8]: for a lead
    byte, the length of the sequence and the range accepted for its
    second byte; [None] for a byte that cannot start a multi-byte
    sequence. *)
Definition lead_info (b : N) : option (nat * N * N) :=
  (if b <? 0xC2 then None
   else if b <=? 0xDF then Some (2%nat, 0x80, 0xBF)
   else if b =? 0xE0 then Some (3%nat, 0xA0, 0xBF)
   else if b <=? 0xEC then Some (3%nat, 0x80, 0xBF)
   else if b =? 0xED then Some (3%nat, 0x80, 0x9F)
   else if b <=? 0xEF then Some (3%nat, 0x80, 0xBF)
   else if b =? 0xF0 then Some (4%nat, 0x90, 0xBF)
   else if b <=? 0xF3 then Some (4%nat, 0x80, 0xBF)
   else if b =? 0xF4 then Some (4%nat, 0x80, 0x8F)
   else None)%N.

(** A continuation byte, [locb <= b <= hicb]. *)
Definition is_cont (b : N) : bool := ((0x80 <=? b) && (b <=? 0xBF))%N.

(** Payload bits of a continuation byte, [b & maskx]. *)
Definition contx (b : N) : N := N.land b 0x3F.

(** What [for end, rune := range s] yields: each rune with the bytes it
    was decoded from.  An invalid or truncated sequence yields
    [RuneError] for its first byte alone, as [utf8.DecodeRuneInString]
    does. *)
Fixpoint runes (s : string) : list (N * string) :=
  match s with
  | EmptyString => []
  | String c0 s1 =>
    let b0 := N_of_ascii c0 in
    if (b0 <? 0x80)%N then (b0, String c0 EmptyString) :: runes s1 else
    match lead_info b0, s1 with
    | Some (sz, lo, hi), String c1 s2 =>
      let b1 := N_of_ascii c1 in
      if ((b1 <? lo) || (hi <? b1))%N
      then (RuneError, String c0 EmptyString) :: runes s1
      else if (sz <=? 2)%nat
      then (N.lor (N.shiftl (N.land b0 0x1F) 6) (contx b1),
            String c0 (String c1 EmptyString)) :: runes s2
      else
        match s2 with
        | String c2 s3 =>
          let b2 := N_of_ascii c2 in
          if negb (is_cont b2)
          then (RuneError, String c0 EmptyString) :: runes s1
          else if (sz <=? 3)%nat
          then (N.lor (N.lor (N.shiftl (N.land b0 0x0F) 12)
                             (N.shiftl (contx b1) 6)) (contx b2),
                String c0 (String c1 (String c2 EmptyString))) :: runes s3
          else
            match s3 with
            | String c3 s4 =>
              let b3 := N_of_ascii c3 in
              if negb (is_cont b3)
              then (RuneError, String c0 EmptyString) :: runes s1
              else (N.lor (N.lor (N.lor (N.shiftl (N.land b0 0x07) 18)
                                        (N.shiftl (contx b1) 12))
                                 (N.shiftl (contx b2) 6)) (contx b3),
                    String c0 (String c1 (String c2 (String c3 EmptyString))))
                   :: runes s4
            | EmptyString => (RuneError, String c0 EmptyString) :: runes s1
            end
        | EmptyString => (RuneError, String c0 EmptyString) :: runes s1
        end
    | _, _ => (RuneError, String c0 EmptyString) :: runes s1
    end
  end.

(** The loop of [strings.FieldsFunc]: [cur] is the field being read
    ([start >= 0] in the source), [None] between fields. *)
Fixpoint fields_loop (f : N -> bool) (rs : list (N * string))
         (cur : option string) : list string :=
  match rs with
  | [] => match cur with Some w => [w] | None => [] end
  | (r, bs) :: rs' =>
    if f r then
      match cur with
      | Some w => w :: fields_loop f rs' None
      | None => fields_loop f rs' None
      end
    else
      fields_loop f rs'
        (Some (match cur with Some w => w +:+ bs | None => bs end))
  end.

Definition FieldsFunc (s : string) (f : N -> bool) : list string :=
  fields_loop f (runes s) None.

(** [strings.Fields]: the ASCII fast path of the source computes the same
    fields as [FieldsFunc(s, unicode.IsSpace)]. *)
Definition Fields (s : string) : list string := FieldsFunc s IsSpace.

(** [strings.HasPrefix]: [len(s) >= len(pre) && s[:len(pre)] == pre]. *)
Fixpoint HasPrefix (s pre : string) {struct pre} : bool :=
  match pre, s with
  | EmptyString, _ => true
  | String c pre', String d s' => Ascii.eqb c d && HasPrefix s' pre'
  | String _ _, EmptyString => false
  end.

(** [s[n:]] for [n <= len(s)]. *)
Fixpoint drop (n : nat) (s : string) : string :=
  match n, s with
  | S n', String _ s' => drop n' s'
  | _, _ => s
  end.

(** [strings.TrimPrefix]. *)
Definition TrimPrefix (s pre : string) : string :=
  if HasPrefix s pre then drop (String.length pre) s else s.

(** [strings.Split(s, sep)] for a separator of one byte, the only way
    the package calls it: the pieces of [s] between occurrences of
    [sep]; never empty. *)
Fixpoint Split (s : string) (sep : ascii) : list string :=
  match s with
  | EmptyString => [EmptyString]
  | String c s' =>
    if Ascii.eqb c sep then EmptyString :: Split s' sep
    else match Split s' sep with
         | p :: ps => String c p :: ps
         | [] => [String c EmptyString]
         end
  end.

(** [strings.Join(elems, sep)] for a separator of one byte. *)
Fixpoint Join (elems : list string) (sep : ascii) : string :=
  match elems with
  | [] => EmptyString
  | [e] => e
  | e :: rest => e +:+ String sep (Join rest sep)
  end.

End strings.

(* ===================================================================== *)
(** ** Package [bot]: integers and errors *)
(* ===================================================================== *)

Module bot.

(** Go's [int] on 64-bit targets. *)
Definition int_bits : Z := 64.
Definition min_int : Z := - 2 ^ (int_bits - 1).
Definition max_int : Z := 2 ^ (int_bits - 1) - 1.

(** Reduction of a mathematical integer to the [int] it is stored as. *)
Definition wrap_int (z : Z) : Z :=
  (z - min_int) mod 2 ^ int_bits + min_int.

(** [a + b] on [int]: overflow wraps around silently. *)
Definition int_add (a b : Z) : Z := wrap_int (a + b).

(** The two errors a [context.Context] reports once it is done. *)
Inductive ctx_error :=
| Canceled            (* context.Canceled *)
| DeadlineExceeded.   (* context.DeadlineExceeded *)

(** Error values.  [lib_error] stands for an error produced by net/http,
    io or encoding/json, of which only the message is known. *)
Inductive error :=
| context_error (c : ctx_error)
| lib_error (msg : string)
| Errorf_s (prefix arg : string)         (* fmt.Errorf(prefix + "%s", arg) *)
| Errorf_w (prefix : string) (err : error). (* fmt.Errorf(prefix + "%w", err) *)

(** [err.Error()]. *)
Fixpoint Error (e : error) : string :=
  match e with
  | context_error Canceled => "context canceled"
  | context_error DeadlineExceeded => "context deadline exceeded"
  | lib_error msg => msg
  | Errorf_s prefix arg => prefix +:+ arg
  | Errorf_w prefix err => prefix +:+ Error err
  end.

(** [errors.Unwrap]. *)
Definition Unwrap (e : error) : option error :=
  match e with
  | Errorf_w _ err => Some err
  | _ => None
  end.

(** [errors.Is(e, context.Canceled)]: the comparison along the chain of
    wrapped errors. *)
Fixpoint Is_Canceled (e : error) : bool :=
  match e with
  | context_error Canceled => true
  | Errorf_w _ err => Is_Canceled err
  | _ => false
  end.

(** [err == context.Canceled || err == context.DeadlineExceeded]: the
    comparison callers use to tell a shutdown from a failure. *)
Definition is_context_error (e : error) : bool :=
  match e with
  | context_error _ => true
  | _ => false
  end.

(** A Go pair [(value, err)] of which exactly one side is meaningful. *)
Inductive res (A : Type) :=
| Val (a : A)
| Err (e : error).
Arguments Val {A} a.
Arguments Err {A} e.

(* ===================================================================== *)
(** ** Data types of the package (types.go) *)
(* ===================================================================== *)

Record User := {
  User_ID : Z;
  User_FirstName : string;
  User_LastName : string;
  User_Username : string
}.

Record Chat := {
  Chat_ID : Z;
  Chat_Type : string;
  Chat_Title : string;
  Chat_Username : string
}.

Record Message := {
  Message_MessageID : Z;
  Message_From : option User;    (* *User, omitempty *)
  Message_Chat : option Chat;    (* *Chat *)
  Message_Date : Z;
  Message_Text : string
}.

Record Update := {
  Update_UpdateID : Z;
  Update_Message : option Message  (* *Message, omitempty *)
}.

Record Response := {
  Response_Ok : bool;
  Response_Result : string;        (* json.RawMessage *)
  Response_Description : string
}.

Record SendMessageRequest := {
  SendMessageRequest_ChatID : Z;
  SendMessageRequest_Text : string
}.

(** The [payload any] argument of [makeRequest], by the three values the
    package passes. *)
Inductive payload :=
| payload_nil
| payload_params (offset timeout : Z)   (* map{"offset": .., "timeout": ..} *)
| payload_send (r : SendMessageRequest).

(** A [slog.Attr] value, by the two constructors the package uses. *)
Inductive attr :=
| slog_String (key value : string)
| slog_Int64 (key : string) (value : Z).

(** What the outside world answers to the library calls of one
    [makeRequest], in the order the function makes them. *)
Record exchange := {
  Marshal_err : option error;       (* json.Marshal(payload) *)
  NewRequest_err : option error;    (* http.NewRequestWithContext *)
  Do_err : option error;            (* b.client.Do(req) *)
  ReadAll_err : option error;       (* io.ReadAll(resp.Body) *)
  Unmarshal_resp : res Response     (* json.Unmarshal(respBody, &apiResp) *)
}.

(** One turn of the [for] loop of [Start], as the outside world decides it. *)
Inductive turn :=
| turn_done (reason : ctx_error)
    (* [<-ctx.Done()] is ready; [ctx.Err()] is [reason] *)
| turn_default (x : exchange) (ctxErr : option ctx_error).
    (* the [default] branch runs: [x] answers [getUpdates], [ctxErr] is
       [ctx.Err()] once [getUpdates] has returned *)

Definition apiURL : string := "https://api.telegram.org/bot%s/%s".
Definition timeout : Z := 60.

(* ===================================================================== *)
(** ** The program *)
(* ===================================================================== *)

Section Program.

(** [context.Context] values and handler functions are opaque to the
    package: it passes the former along and calls the latter. *)
Context {context : Type}.
Context {Command : Type}.   (* func(context.Context, *Bot, *Message) *)

(** [json.Unmarshal] of a raw result into [[]Update] and into [User]. *)
Variable Unmarshal_updates : string -> res (list Update).
Variable Unmarshal_User : string -> res User.

Record CommandRegistry := {
  registry : gmap string Command
}.

Record Bot := {
  token : string;
  client_Timeout : Z;          (* http.Client.Timeout, in seconds *)
  offset : Z;
  commandRegistry : option CommandRegistry;   (* *CommandRegistry *)
  apiBaseURL : string
}.

(** Observable effects, in program order. *)
Inductive event :=
| Log (line : string)
    (* log.Printf / log.Println *)
| Slog (level msg : string) (attrs : list attr)
    (* b.logger.Info / b.logger.Error of the structured-logging revision *)
| HTTPPost (base tok method : string) (body : payload)
    (* b.client.Do(req), req a POST to Sprintf(base, tok, method) *)
| Sleep (seconds : Z)
    (* time.Sleep(seconds * time.Second) *)
| Go (ctx : context) (msg : Message)
    (* go b.handleMessage(ctx, msg) *)
| Call (action : Command) (ctx : context) (bot : Bot) (msg : Message).
    (* action(ctx, bot, msg) *)

(** Computations: the events emitted so far, and the value returned, or
    [None] after a panic. *)
Definition M (A : Type) : Type := list event * option A.

Definition ret {A} (a : A) : M A := ([], Some a).

Definition bind {A B} (m : M A) (k : A -> M B) : M B :=
  match m with
  | (t, None) => (t, None)
  | (t, Some a) => let (t', r) := k a in (t ++ t', r)
  end.

Definition emit (e : event) : M unit := ([e], Some tt).

Definition panic {A} : M A := ([], None).

(** [*p] for a pointer [p]. *)
Definition deref {A} (p : option A) : M A :=
  match p with
  | Some a => ret a
  | None => panic
  end.

#[export] Instance M_ret : MRet M := @ret.
#[export] Instance M_bind : MBind M := fun A B k m => bind m k.

(** *** command.go *)

Definition NewCommandRegistry : CommandRegistry :=
  {| registry := ∅ |}.

Definition Register (cr : CommandRegistry) (command : string) (action : Command)
  : CommandRegistry :=
  {| registry := <[command := action]> (registry cr) |}.

Definition Execute (cr : CommandRegistry) (ctx : context) (bot : Bot)
           (msg : Message) : M bool :=
  if negb (strings.HasPrefix (Message_Text msg) "/") then ret false else
  let parts := strings.Fields (Message_Text msg) in
  match parts with
  | [] => ret false
  | part0 :: _ =>
    let command := strings.TrimPrefix part0 "/" in
    match strings.Split command "@" with
    | [] => panic                      (* index out of range *)
    | command :: _ =>
      match registry cr !! command with
      | None => ret false
      | Some action =>
        emit (Call action ctx bot msg);;
        ret true
      end
    end
  end.

(** *** bot.go *)

Definition NewBot (tok : string) : Bot :=
  {| token := tok;
     client_Timeout := 70;
     offset := 0;
     commandRegistry := None;
     apiBaseURL := apiURL |}.

Definition SetCommandRegistry (b : Bot) (cr : option CommandRegistry) : Bot :=
  {| token := token b;
     client_Timeout := client_Timeout b;
     offset := offset b;
     commandRegistry := cr;
     apiBaseURL := apiBaseURL b |}.

(** [b.offset = v]. *)
Definition set_offset (b : Bot) (v : Z) : Bot :=
  {| token := token b;
     client_Timeout := client_Timeout b;
     offset := v;
     commandRegistry := commandRegistry b;
     apiBaseURL := apiBaseURL b |}.

Definition makeRequest (b : Bot) (ctx : context) (method : string)
           (body : payload) (x : exchange) : M (res Response) :=
  match (match body with payload_nil => None | _ => Marshal_err x end) with
  | Some err => ret (Err (Errorf_w "error marshaling payload: " err))
  | None =>
  match NewRequest_err x with
  | Some err => ret (Err (Errorf_w "error creating request: " err))
  | None =>
  emit (HTTPPost (apiBaseURL b) (token b) method body);;
  match Do_err x with
  | Some err => ret (Err (Errorf_w "error making request: " err))
  | None =>
  match ReadAll_err x with
  | Some err => ret (Err (Errorf_w "error reading response: " err))
  | None =>
  match Unmarshal_resp x with
  | Err err => ret (Err (Errorf_w "error unmarshaling response: " err))
  | Val apiResp =>
    if negb (Response_Ok apiResp)
    then ret (Err (Errorf_s "API error: " (Response_Description apiResp)))
    else ret (Val apiResp)
  end end end end end.

Definition getUpdates (b : Bot) (ctx : context) (x : exchange)
  : M (res (list Update)) :=
  let params := payload_params (offset b) timeout in
  r ← makeRequest b ctx "getUpdates" params x;
  match r with
  | Err err => ret (Err err)
  | Val resp =>
    match Unmarshal_updates (Response_Result resp) with
    | Err err => ret (Err (Errorf_w "error unmarshaling updates: " err))
    | Val updates => ret (Val updates)
    end
  end.

Definition SendMessage (b : Bot) (ctx : context) (chatID : Z) (text : string)
           (x : exchange) : M (option error) :=
  let payload :=
    payload_send {| SendMessageRequest_ChatID := chatID;
                    SendMessageRequest_Text := text |} in
  r ← makeRequest b ctx "sendMessage" payload x;
  match r with
  | Err err => ret (Some err)
  | Val _ => ret None
  end.

Definition GetMe (b : Bot) (ctx : context) (x : exchange) : M (option error) :=
  r ← makeRequest b ctx "getMe" payload_nil x;
  match r with
  | Err err => ret (Some err)
  | Val resp =>
    match Unmarshal_User (Response_Result resp) with
    | Err err => ret (Some err)
    | Val user =>
      emit (Log ("Bot iniciado: @" +:+ User_Username user +:+ " ("
                 +:+ User_FirstName user +:+ ")"));;
      ret None
    end
  end.

(** [x] answers the [sendMessage] request of the echo branch. *)
Definition handleMessage (b : Bot) (ctx : context) (msg : Message)
           (x : exchange) : M unit :=
  from ← deref (Message_From msg);
  emit (Log ("Mensaje de " +:+ User_FirstName from +:+ ": "
             +:+ Message_Text msg));;
  if strings.HasPrefix (Message_Text msg) "/" then
    match commandRegistry b with
    | Some cr => _ ← Execute cr ctx b msg; ret tt
    | None => ret tt
    end
  else
    if negb (String.eqb (Message_Text msg) "") then
      let response := "Recibí tu mensaje: " +:+ Message_Text msg in
      chat ← deref (Message_Chat msg);
      err ← SendMessage b ctx (Chat_ID chat) response x;
      match err with
      | Some err => emit (Log ("Error enviando mensaje: " +:+ Error err))
      | None => ret tt
      end
    else ret tt.

(** *** The revision of bot.go that logs through [log/slog]

    The functions below are those of the revision whose [Bot] carries a
    logger; the logger is taken to be set, as [NewBot] of that revision
    leaves it.  Each call of [b.logger] is a [Slog] event. *)

Definition makeRequest_slog (b : Bot) (ctx : context) (method : string)
           (body : payload) (x : exchange) : M (res Response) :=
  match (match body with payload_nil => None | _ => Marshal_err x end) with
  | Some err =>
    emit (Slog "ERROR" "Error marshaling payload"
               [slog_String "method" method;
                slog_String "error" (Error err)]);;
    ret (Err (Errorf_w "error marshaling payload: " err))
  | None =>
  match NewRequest_err x with
  | Some err =>
    emit (Slog "ERROR" "Error creating request"
               [slog_String "method" method;
                slog_String "error" (Error err)]);;
    ret (Err (Errorf_w "error creating request: " err))
  | None =>
  emit (Slog "DEBUG" "Enviando request a Telegram API"
             [slog_String "method" method]);;
  emit (HTTPPost (apiBaseURL b) (token b) method body);;
  match Do_err x with
  | Some err =>
    emit (Slog "ERROR" "Error making request"
               [slog_String "method" method;
                slog_String "error" (Error err)]);;
    ret (Err (Errorf_w "error making request: " err))
  | None =>
  match ReadAll_err x with
  | Some err =>
    emit (Slog "ERROR" "Error reading response"
               [slog_String "method" method;
                slog_String "error" (Error err)]);;
    ret (Err (Errorf_w "error reading response: " err))
  | None =>
  match Unmarshal_resp x with
  | Err err =>
    emit (Slog "ERROR" "Error unmarshaling response"
               [slog_String "method" method;
                slog_String "error" (Error err)]);;
    ret (Err (Errorf_w "error unmarshaling response: " err))
  | Val apiResp =>
    if negb (Response_Ok apiResp)
    then
      emit (Slog "ERROR" "API error response"
                 [slog_String "method" method;
                  slog_String "description" (Response_Description apiResp)]);;
      ret (Err (Errorf_s "API error: " (Response_Description apiResp)))
    else ret (Val apiResp)
  end end end end end.

Definition SendMessage_slog (b : Bot) (ctx : context) (chatID : Z)
           (text : string) (x : exchange) : M (option error) :=
  let payload :=
    payload_send {| SendMessageRequest_ChatID := chatID;
                    SendMessageRequest_Text := text |} in
  r ← makeRequest_slog b ctx "sendMessage" payload x;
  match r with
  | Err err => ret (Some err)
  | Val _ => ret None
  end.

(** [handleMessage] of that revision: the first statement reads
    [msg.From.FirstName] and [msg.Chat.ID], in this order, to build the
    attributes of the record. *)
Definition handleMessage_slog (b : Bot) (ctx : context) (msg : Message)
           (x : exchange) : M unit :=
  from ← deref (Message_From msg);
  chat ← deref (Message_Chat msg);
  emit (Slog "INFO" "Mensaje recibido"
             [slog_String "from" (User_FirstName from);
              slog_Int64 "chat_id" (Chat_ID chat);
              slog_String "text" (Message_Text msg)]);;
  if strings.HasPrefix (Message_Text msg) "/" then
    match commandRegistry b with
    | Some cr => _ ← Execute cr ctx b msg; ret tt
    | None => ret tt
    end
  else
    if negb (String.eqb (Message_Text msg) "") then
      let response := "Recibí tu mensaje: " +:+ Message_Text msg in
      chat ← deref (Message_Chat msg);
      err ← SendMessage_slog b ctx (Chat_ID chat) response x;
      match err with
      | Some err =>
        chat ← deref (Message_Chat msg);
        emit (Slog "ERROR" "Error enviando mensaje"
                   [slog_Int64 "chat_id" (Chat_ID chat);
                    slog_String "error" (Error err)])
      | None => ret tt
      end
    else ret tt.

(** The body of [for _, update := range updates]. *)
Fixpoint range_updates (b : Bot) (ctx : context) (updates : list Update)
  : M Bot :=
  match updates with
  | [] => ret b
  | update :: rest =>
    let b := set_offset b (int_add (Update_UpdateID update) 1) in
    match Update_Message update with
    | Some msg => emit (Go ctx msg)
    | None => ret tt
    end;;
    range_updates b ctx rest
  end.

(** The [for { select { ... } }] loop.  It runs as long as the outside
    world supplies turns; [None] as error means that the turns are used up
    and the loop is still running. *)
Fixpoint polling (b : Bot) (ctx : context) (turns : list turn)
  : M (Bot * option error) :=
  match turns with
  | [] => ret (b, None)
  | turn_done reason :: _ =>
    emit (Log "Shutdown señalizado, cerrando bot...");;
    ret (b, Some (context_error reason))
  | turn_default x ctxErr :: rest =>
    r ← getUpdates b ctx x;
    match r with
    | Err err =>
      match ctxErr with
      | Some reason => ret (b, Some (context_error reason))
      | None =>
        emit (Log ("Error obteniendo updates: " +:+ Error err));;
        emit (Sleep 3);;
        polling b ctx rest
      end
    | Val updates =>
      b ← range_updates b ctx updates;
      polling b ctx rest
    end
  end.

(** [x] answers the [getMe] request. *)
Definition Start (b : Bot) (ctx : context) (x : exchange) (turns : list turn)
  : M (Bot * option error) :=
  emit (Log "Iniciando bot...");;
  err ← GetMe b ctx x;
  match err with
  | Some err => ret (b, Some (Errorf_w "error verificando bot: " err))
  | None =>
    emit (Log "Esperando mensajes... (Ctrl+C para detener)");;
    polling b ctx turns
  end.

End Program.

End bot.

Import bot.

(* ===================================================================== *)
(** ** The constructor of the revision with functional options *)
(* ===================================================================== *)

(** [NewBot], [WithLogger] and [WithCommandRegistry] of the revision of
    bot.go that logs through [log/slog].  A [BotOption] is a
    [func(b *Bot)]: here a function from the bot to the bot it leaves. *)
Module options.

Section Options.

Context {Command Logger : Type}.

(** [defaultLogger()]: a fresh logger on standard output, never nil. *)
Variable defaultLogger : Logger.

Record Bot := {
  token : string;
  client_Timeout : Z;
  offset : Z;
  commandRegistry : option (@CommandRegistry Command);
  apiBaseURL : string;
  logger : option Logger        (* *slog.Logger *)
}.

Definition BotOption : Type := Bot -> Bot.

Definition WithLogger (log : option Logger) : BotOption :=
  fun b =>
    match log with
    | Some _ =>
      {| token := token b; client_Timeout := client_Timeout b;
         offset := offset b; commandRegistry := commandRegistry b;
         apiBaseURL := apiBaseURL b; logger := log |}
    | None => b
    end.

Definition WithCommandRegistry (registry : option (@CommandRegistry Command))
  : BotOption :=
  fun b =>
    {| token := token b; client_Timeout := client_Timeout b;
       offset := offset b; commandRegistry := registry;
       apiBaseURL := apiBaseURL b; logger := logger b |}.

Definition NewBot (tok : string) (opts : list BotOption) : Bot :=
  let b := {| token := tok; client_Timeout := 70; offset := 0;
              commandRegistry := None; apiBaseURL := apiURL;
              logger := Some defaultLogger |} in
  fold_left (fun b opt => opt b) opts b.

(** The options of the package, by their arguments. *)
Inductive option_arg :=
| arg_logger (log : option Logger)
| arg_registry (registry : option (@CommandRegistry Command)).

Definition option_of (a : option_arg) : BotOption :=
  match a with
  | arg_logger log => WithLogger log
  | arg_registry registry => WithCommandRegistry registry
  end.

(** The loggers that are not nil among the arguments, in order. *)
Definition loggers_given (args : list option_arg) : list Logger :=
  omap (fun a => match a with arg_logger log => log | _ => None end) args.

(** The registries among the arguments, in order. *)
Definition registries_given (args : list option_arg)
  : list (option (@CommandRegistry Command)) :=
  omap (fun a => match a with arg_registry r => Some r | _ => None end) args.

(** An option built by one of the two constructors of the package. *)
Definition package_option (opt : BotOption) : Prop :=
  (exists log, opt = WithLogger log) \/
  (exists registry, opt = WithCommandRegistry registry).

End Options.

End options.

(* ===================================================================== *)
(** ** Vocabulary of the properties *)
(* ===================================================================== *)

(** A value of Go's [int]. *)
Definition is_int (z : Z) : Prop := min_int <= z <= max_int.

(** A log record, of either logging package. *)
Definition is_log {context Command : Type}
           (e : @event context Command) : bool :=
  match e with
  | Log _ | Slog _ _ _ => true
  | _ => false
  end.

(** What a trace does besides logging. *)
Definition effects {context Command : Type}
           (t : list (@event context Command)) : list (@event context Command) :=
  omap (fun e => if is_log e then None else Some e) t.

(** The number of turns that take the [default] branch. *)
Definition default_turns (turns : list turn) : nat :=
  length (omap (fun k => match k with
                         | turn_default x _ => Some x
                         | turn_done _ => None
                         end) turns).

(** A string made of white space only, as [strings.Fields] sees it. *)
Definition all_space (s : string) : bool :=
  forallb (fun r => strings.IsSpace (fst r)) (strings.runes s).

(** A string without any white space. *)
Definition no_space (s : string) : bool :=
  forallb (fun r => negb (strings.IsSpace (fst r))) (strings.runes s).

(** A string without the byte [c]. *)
Fixpoint no_byte (c : ascii) (s : string) : bool :=
  match s with
  | EmptyString => true
  | String c' s' => negb (Ascii.eqb c' c) && no_byte c s'
  end.

(** The table key a message text selects: what [Execute] looks up. *)
Definition command_name (text : string) : option string :=
  if strings.HasPrefix text "/" then
    match strings.Fields text with
    | [] => None
    | part0 :: _ => head (strings.Split (strings.TrimPrefix part0 "/") "@")
    end
  else None.

(** The exchange [x], for a request with body [body], gets as far as
    decoding the response envelope [apiResp]. *)
Definition decodes (body : payload) (x : exchange) (apiResp : Response) : Prop :=
  (body = payload_nil \/ Marshal_err x = None) /\
  NewRequest_err x = None /\ Do_err x = None /\ ReadAll_err x = None /\
  Unmarshal_resp x = Val apiResp.

(** The ids of a batch, in the order received. *)
Definition update_ids (updates : list Update) : list Z :=
  map Update_UpdateID updates.

(** An [int] whose successor is an [int] too. *)
Definition incrementable (u : Z) : Prop := min_int <= u < max_int.

(** The offset the loop should hold once the ids [ids] are consumed. *)
Definition offset_after (off : Z) (ids : list Z) : Z :=
  match last ids with
  | Some un => un + 1
  | None => off
  end.

(** A batch as the update source promises it to a loop whose offset is
    [off]: ids strictly ascending and none below [off]. *)
Definition batch_ok (off : Z) (ids : list Z) : Prop :=
  StronglySorted Z.lt ids /\ Forall (fun u => off <= u) ids.

(** The offset held after the loop body has run over a batch. *)
Definition offset_of_range (off : Z) (updates : list Update) : Z :=
  fold_left (fun _ u => int_add (Update_UpdateID u) 1) updates off.

(** The goroutines the loop body starts for a batch. *)
Definition spawned {context Command : Type} (ctx : context)
           (updates : list Update) : list (@event context Command) :=
  omap (fun u => Go ctx <$> Update_Message u) updates.

(** Every batch that [getUpdates] hands to the loop during the turns
    [turns] is [batch_ok] for the offset the loop holds at that moment,
    and free of overflow. *)
Fixpoint fed_ok {context Command : Type}
         (Unmarshal_updates : string -> res (list Update))
         (ctx : context) (b : @Bot Command) (turns : list turn) : Prop :=
  match turns with
  | [] => True
  | turn_done _ :: _ => True
  | turn_default x ctxErr :: rest =>
    match snd (getUpdates Unmarshal_updates b ctx x), ctxErr with
    | Some (Val updates), _ =>
      batch_ok (offset b) (update_ids updates) /\
      Forall incrementable (update_ids updates) /\
      fed_ok Unmarshal_updates ctx
             (set_offset b (offset_of_range (offset b) updates)) rest
    | Some (Err _), None => fed_ok Unmarshal_updates ctx b rest
    | _, _ => True
    end
  end.

(** The turns [turns] are [n] failed fetches in a row, none of them with
    the context cancelled. *)
Definition all_fail {context Command : Type}
           (Unmarshal_updates : string -> res (list Update))
           (ctx : context) (b : @Bot Command) (turns : list turn) : Prop :=
  Forall (fun k =>
            match k with
            | turn_default x None =>
              exists err, snd (getUpdates Unmarshal_updates b ctx x)
                          = Some (Err err)
            | _ => False
            end) turns.

(** Sample inputs: an exchange that delivers the envelope [apiResp], an
    exchange whose HTTP round trip fails with [err], and decoders that
    read any raw result as a fixed value. *)
Definition exchange_of (apiResp : Response) : exchange :=
  {| Marshal_err := None; NewRequest_err := None; Do_err := None;
     ReadAll_err := None; Unmarshal_resp := Val apiResp |}.

Definition exchange_failing (err : error) : exchange :=
  {| Marshal_err := None; NewRequest_err := None; Do_err := Some err;
     ReadAll_err := None;
     Unmarshal_resp := Err (lib_error "unexpected end of JSON input") |}.

Definition envelope_ok : Response :=
  {| Response_Ok := true; Response_Result := "[]"; Response_Description := "" |}.

Definition envelope_unauthorized : Response :=
  {| Response_Ok := false; Response_Result := "";
     Response_Description := "Unauthorized" |}.

Definition sample_updates : list Update :=
  [{| Update_UpdateID := 5; Update_Message := None |};
   {| Update_UpdateID := 7; Update_Message := None |}].

Definition sample_Unmarshal_updates (raw : string) : res (list Update) :=
  Val sample_updates.

Definition sample_Unmarshal_User (raw : string) : res User :=
  Val {| User_ID := 1; User_FirstName := "Bot"; User_LastName := "";
         User_Username := "test_bot" |}.

(** The offsets that the [getUpdates] requests of a trace carry. *)
Definition requested_offsets {context Command : Type}
           (t : list (@event context Command)) : list Z :=
  omap (fun e =>
          match e with
          | HTTPPost _ _ method (payload_params off _) =>
            if String.eqb method "getUpdates" then Some off else None
          | _ => None
          end) t.

(** The pauses of a trace, in seconds. *)
Definition sleeps {context Command : Type}
           (t : list (@event context Command)) : list Z :=
  omap (fun e => match e with Sleep seconds => Some seconds | _ => None end) t.

(** The event is the HTTP request of a [getUpdates] call. *)
Definition is_fetch {context Command : Type}
           (e : @event context Command) : bool :=
  match e with
  | HTTPPost _ _ method _ => String.eqb method "getUpdates"
  | _ => false
  end.

(* ===================================================================== *)
(** ** Properties of command extraction *)
(* ===================================================================== *)

(** Unfolds the monad operations in the goal. *)
Ltac run_M :=
  repeat progress
    (unfold mbind, M_bind, bind, ret, emit, panic, deref; cbn [fst snd app]).

Lemma Split_cons (s : string) (sep : ascii) :
  exists p ps, strings.Split s sep = p :: ps.
Proof.
  induction s as [|c s IH]; cbn [strings.Split].
  - eauto.
  - destruct (Ascii.eqb c sep); [eauto|].
    destruct IH as (p & ps & ->). eauto.
Qed.

(** Without the separator in it, a string is its own single piece. *)
Lemma Split_no_byte (s : string) (sep : ascii) :
  no_byte sep s = true -> strings.Split s sep = [s].
Proof.
  induction s as [|c s IH]; cbn [strings.Split no_byte]; [done|].
  intros [Hc Hs]%andb_prop.
  destruct (Ascii.eqb c sep); [done|]. by rewrite IH.
Qed.


(** [Execute] is a table lookup at [command_name]; it never panics. *)
Lemma Execute_command_name {context Command : Type}
      (cr : @CommandRegistry Command) (ctx : context) bot msg :
  Execute cr ctx bot msg =
  match command_name (Message_Text msg) ≫= (registry cr !!.) with
  | Some action => ([Call action ctx bot msg], Some true)
  | None => ([], Some false)
  end.
Proof.
  unfold Execute, command_name.
  destruct (strings.HasPrefix (Message_Text msg) "/"); cbn [negb]; [|done].
  destruct (strings.Fields (Message_Text msg)) as [|part0 parts]; [done|].
  destruct (Split_cons (strings.TrimPrefix part0 "/") "@") as (p & ps & ->).
  cbn [head option_bind mbind]. unfold mbind, option_bind. cbn.
  destruct (registry cr !! p); done.
Qed.

(** After a field has started, white space up to the end closes it and
    opens no other. *)
Lemma fields_loop_space_tail (rs : list (N * string)) (w : string) :
  forallb (fun r => strings.IsSpace (fst r)) rs = true ->
  strings.fields_loop strings.IsSpace rs (Some w) = [w] /\
  strings.fields_loop strings.IsSpace rs None = [].
Proof.
  induction rs as [|[r bs] rs IH]; cbn [forallb strings.fields_loop fst]; [done|].
  intros [-> Hrs]%andb_prop. destruct (IH Hrs) as [_ ->]. done.
Qed.

(** The marker, alone or followed by white space only, is one token, and
    the name it selects is the empty string. *)
Lemma command_name_marker (ws : string) :
  all_space ws = true ->
  strings.Fields (String "/" ws) = ["/"%string] /\
  command_name (String "/" ws) = Some EmptyString.
Proof.
  unfold all_space. intros Hws.
  assert (HF : strings.Fields (String "/" ws) = ["/"%string]).
  { unfold strings.Fields, strings.FieldsFunc.
    change (strings.runes (String "/" ws))
      with ((47%N, "/"%string) :: strings.runes ws).
    cbn [strings.fields_loop].
    change (strings.IsSpace 47) with false. cbn iota.
    by apply fields_loop_space_tail. }
  split; [done|]. unfold command_name. rewrite HF. reflexivity.
Qed.

Lemma append_assoc (s1 s2 s3 : string) :
  (s1 +:+ s2) +:+ s3 = s1 +:+ (s2 +:+ s3).
Proof.
  induction s1 as [|c s1 IH]; [done|].
  change (String c ((s1 +:+ s2) +:+ s3) = String c (s1 +:+ (s2 +:+ s3))).
  by rewrite IH.
Qed.

(** A field that has started extends over all the bytes of a string
    without white space, whatever its encoding. *)
Lemma fields_loop_no_space (s w : string) :
  no_space s = true ->
  strings.fields_loop strings.IsSpace (strings.runes s) (Some w) = [w +:+ s].
Proof.
  unfold no_space.
  remember (String.length s) as n eqn:Hn.
  assert (Hle : (String.length s <= n)%nat) by lia. clear Hn.
  revert s w Hle.
  induction n as [|n IH]; intros [|c0 s1] w Hle; cbn in Hle; try lia.
  - intros _. cbn. f_equal. induction w as [|c w IHw]; [done|].
    change (String c w = String c (w +:+ "")). by rewrite <- IHw.
  - intros _. cbn. f_equal. induction w as [|c w IHw]; [done|].
    change (String c w = String c (w +:+ "")). by rewrite <- IHw.
  - assert (Hstep : forall r bs rest,
      (String.length rest <= n)%nat ->
      String c0 s1 = bs +:+ rest ->
      forallb (fun r => negb (strings.IsSpace (fst r)))
              ((r, bs) :: strings.runes rest) = true ->
      strings.fields_loop strings.IsSpace ((r, bs) :: strings.runes rest)
                          (Some w) = [w +:+ String c0 s1]).
    { intros r bs rest Hrest -> [Hr Hrs]%andb_prop.
      cbn [strings.fields_loop]. cbn [fst] in Hr.
      apply negb_true_iff in Hr. rewrite Hr.
      rewrite (IH rest (w +:+ bs) Hrest Hrs). by rewrite append_assoc. }
    cbn [strings.runes].
    repeat case_match; subst; intros Hns;
      (apply Hstep; [cbn in *; lia | reflexivity | exact Hns]).
Qed.

(** A token [/rest] without white space is the only field of its text, and
    selects what precedes the first [@] of [rest]. *)
Lemma command_name_token (rest : string) :
  no_space rest = true ->
  command_name (String "/" rest) = head (strings.Split rest "@").
Proof.
  intros Hrest. unfold command_name.
  change (strings.HasPrefix (String "/" rest) "/") with true. cbn iota.
  unfold strings.Fields, strings.FieldsFunc.
  change (strings.runes (String "/" rest))
    with ((47%N, "/"%string) :: strings.runes rest).
  cbn [strings.fields_loop]. change (strings.IsSpace 47) with false. cbn iota.
  rewrite (fields_loop_no_space rest "/" Hrest). reflexivity.
Qed.



(** C3, as the spec words it, fails: a handler registered under the empty
    name is what the text ["/"] selects. *)
Lemma Execute_marker_only_counterexample :
  Execute (Register NewCommandRegistry "" "H"%string) tt (NewBot "t")
          {| Message_MessageID := 1; Message_From := None;
             Message_Chat := None; Message_Date := 0; Message_Text := "/" |}
  <> ([], Some false).
Proof. vm_compute. discriminate. Qed.

(** C3, amended. On a text that is empty or does not start with the
    marker, [Execute] returns [false] and calls nothing.  On the marker
    alone, or followed by white space only, the text is the single token
    ["/"] and selects the empty name: [Execute] returns [false] and calls
    nothing when no handler is registered under the empty name, and calls
    that handler otherwise. *)
Theorem Execute_no_command {context Command : Type}
        (cr : @CommandRegistry Command)
        (ctx : context) (bot : Bot) (msg : Message) :
  (Message_Text msg = EmptyString \/
   strings.HasPrefix (Message_Text msg) "/" = false ->
   Execute cr ctx bot msg = ([], Some false)) /\
  (forall ws : string,
      all_space ws = true ->
      Message_Text msg = String "/" ws ->
      strings.Fields (Message_Text msg) = ["/"%string] /\
      (registry cr !! EmptyString = None ->
       Execute cr ctx bot msg = ([], Some false)) /\
      (forall H, registry cr !! EmptyString = Some H ->
                 Execute cr ctx bot msg = ([Call H ctx bot msg], Some true))).
Proof.
  split.
  - intros Htext. unfold Execute.
    assert (Hpre : strings.HasPrefix (Message_Text msg) "/" = false)
      by (destruct Htext as [-> | ->]; reflexivity).
    by rewrite Hpre.
  - intros ws Hws Htext. rewrite Execute_command_name, Htext.
    destruct (command_name_marker ws Hws) as [HF ->].
    cbn [mbind option_bind]. split; [done|].
    split; [by intros -> | by intros H ->].
Qed.

Lemma Execute_no_command_witness :
  let cr := Register NewCommandRegistry "start" "H"%string in
  let msg := {| Message_MessageID := 1; Message_From := None;
                Message_Chat := None; Message_Date := 0;
                Message_Text := "/ " |} in
  all_space " " = true /\
  Execute cr tt (NewBot "t") msg = ([], Some false).
Proof.
  intros cr msg. split; [reflexivity|].
  destruct (proj2 (Execute_no_command cr tt (NewBot "t") msg) " "%string)
    as (_ & Hnone & _); [reflexivity | reflexivity |].
  apply Hnone. vm_compute. reflexivity.
Defined.

(** C9. Registering [H1] and then [H2] under one name leaves the table
    as if [H2] alone had been registered: one entry for the name, bound
    to [H2]; every message that selects the name calls [H2] and nothing
    else. *)
Theorem Register_overwrite {context Command : Type}
        (cr : @CommandRegistry Command) (name : string) (H1 H2 : Command) :
  let cr2 := Register (Register cr name H1) name H2 in
  registry cr2 !! name = Some H2 /\
  cr2 = Register cr name H2 /\
  size (registry cr2) = size (registry (Register cr name H1)) /\
  size (registry (Register (Register (@NewCommandRegistry Command) name H1)
                           name H2)) = 1%nat /\
  (forall (ctx : context) bot msg,
      command_name (Message_Text msg) = Some name ->
      Execute cr2 ctx bot msg = ([Call H2 ctx bot msg], Some true)) /\
  (forall (ctx : context) bot msg,
      no_space name = true -> no_byte "@" name = true ->
      Message_Text msg = String "/" name ->
      Execute cr2 ctx bot msg = ([Call H2 ctx bot msg], Some true)).
Proof.
  intros cr2. unfold cr2, Register; cbn [registry].
  assert (Hlook : <[name:=H2]> (<[name:=H1]> (registry cr)) !! name = Some H2)
    by apply lookup_insert_eq.
  assert (Hsel : forall (ctx : context) bot msg,
             command_name (Message_Text msg) = Some name ->
             Execute {| registry := <[name:=H2]> (<[name:=H1]> (registry cr)) |}
                     ctx bot msg = ([Call H2 ctx bot msg], Some true)).
  { intros ctx bot msg Hname. rewrite Execute_command_name, Hname.
    cbn [mbind option_bind registry]. by rewrite Hlook. }
  repeat split.
  - exact Hlook.
  - by rewrite insert_insert_eq.
  - by rewrite insert_insert_eq, !map_size_insert.
  - rewrite insert_insert_eq. cbn [NewCommandRegistry registry].
    by rewrite map_size_insert_None, map_size_empty.
  - exact Hsel.
  - intros ctx bot msg Hsp Hat Htext. apply Hsel. rewrite Htext.
    rewrite command_name_token by done. by rewrite Split_no_byte.
Qed.

Lemma Register_overwrite_witness :
  let msg := {| Message_MessageID := 1; Message_From := None;
                Message_Chat := Some {| Chat_ID := 123; Chat_Type := "private";
                                        Chat_Title := ""; Chat_Username := "" |};
                Message_Date := 0; Message_Text := "/start" |} in
  command_name "/start" = Some "start"%string /\
  Execute (Register (Register NewCommandRegistry "start" "handler1"%string)
                    "start" "handler2"%string) tt (NewBot "test-token") msg
  = ([Call "handler2"%string tt (NewBot "test-token") msg], Some true).
Proof.
  intros msg. split; [reflexivity|].
  destruct (Register_overwrite (context:=unit) NewCommandRegistry "start"
                               "handler1"%string "handler2"%string)
    as (_ & _ & _ & _ & Hsel & _).
  apply Hsel. reflexivity.
Defined.

(** *** The cases of the package's tests *)

Example strings_Fields_ascii :
  strings.Fields "  /start   arg1 arg2 " = ["/start"; "arg1"; "arg2"]%string.
Proof. reflexivity. Qed.

(** U+00A0 and U+200A after the marker are white space for
    [strings.Fields]; a lone lead byte 0xE2 is not. *)
Example strings_Fields_unicode :
  strings.Fields (String "/" (strings.of_bytes [0xC2; 0xA0; 0xE2; 0x80; 0x8A]%N))
  = ["/"%string] /\
  strings.Fields (String "/" (strings.of_bytes [0x20; 0xE2; 0x20]%N))
  = ["/"%string; strings.of_bytes [0xE2]%N].
Proof. split; vm_compute; reflexivity. Qed.

(** TestCommandRegistry_Execute and
    TestCommandRegistry_Execute_CommandExtraction: the name each text
    selects. *)
Example command_name_tests :
  command_name "/start" = Some "start"%string /\
  command_name "/start@testbot" = Some "start"%string /\
  command_name "/start arg1 arg2" = Some "start"%string /\
  command_name "/help@mybot arg1 arg2" = Some "help"%string /\
  command_name "/unknown" = Some "unknown"%string /\
  command_name "start" = None /\
  command_name "" = None /\
  command_name "/" = Some ""%string.
Proof. repeat split. Qed.

(** The same table run through [Execute], with ["start"] registered. *)
Example Execute_tests :
  let cr := Register NewCommandRegistry "start" "handler"%string in
  let bot := NewBot "test-token" in
  let msg text := {| Message_MessageID := 0; Message_From := None;
                     Message_Chat := Some {| Chat_ID := 123; Chat_Type := "";
                                             Chat_Title := ""; Chat_Username := "" |};
                     Message_Date := 0; Message_Text := text |} in
  Execute cr tt bot (msg "/start"%string)
  = ([Call "handler"%string tt bot (msg "/start"%string)], Some true) /\
  Execute cr tt bot (msg "/unknown"%string) = ([], Some false) /\
  Execute cr tt bot (msg "start"%string) = ([], Some false) /\
  Execute cr tt bot (msg ""%string) = ([], Some false) /\
  Execute cr tt bot (msg "/"%string) = ([], Some false).
Proof. repeat split; vm_compute; reflexivity. Qed.

(* ===================================================================== *)
(** ** Properties of the requests *)
(* ===================================================================== *)

(** [makeRequest] never panics, emits at most the one HTTP request, and
    hands out an envelope only if its [ok] is set. *)
Lemma makeRequest_cases {context Command : Type}
      (b : @Bot Command) (ctx : context) method body x :
  exists t r, makeRequest b ctx method body x = (t, Some r) /\
              (t = [] \/ t = [HTTPPost (apiBaseURL b) (token b) method body]) /\
              match r with
              | Val apiResp => Response_Ok apiResp = true /\
                               Unmarshal_resp x = Val apiResp
              | Err err => is_context_error err = false
              end.
Proof.
  unfold makeRequest.
  destruct (match body with payload_nil => None | _ => Marshal_err x end);
    [run_M; eauto 10|].
  destruct (NewRequest_err x); [run_M; eauto 10|].
  destruct (Do_err x); [run_M; eauto 10|].
  destruct (ReadAll_err x); [run_M; eauto 10|].
  destruct (Unmarshal_resp x) as [apiResp|]; [|run_M; eauto 10].
  destruct (Response_Ok apiResp) eqn:Hok; run_M; eauto 10.
Qed.

Lemma makeRequest_decodes {context Command : Type}
      (b : @Bot Command) (ctx : context) method body x apiResp :
  decodes body x apiResp ->
  makeRequest b ctx method body x =
  ([HTTPPost (apiBaseURL b) (token b) method body],
   Some (if Response_Ok apiResp then Val apiResp
         else Err (Errorf_s "API error: " (Response_Description apiResp)))).
Proof.
  intros (Hm & Hn & Hd & Hr & Hu). unfold makeRequest.
  assert (match body with payload_nil => None | _ => Marshal_err x end = None)
    as -> by (destruct Hm as [-> | ->]; [done | by destruct body]).
  rewrite Hn, Hd, Hr, Hu.
  destruct (Response_Ok apiResp); run_M; done.
Qed.

(** C8. When the decoded envelope has [ok = false], [makeRequest] returns
    the error ["API error: " + description]; it never returns an envelope
    whose [ok] is false; and [GetMe], [SendMessage] and [getUpdates] all
    return that error. *)
Theorem makeRequest_ok_false {context Command : Type}
        (Unmarshal_updates : string -> res (list Update))
        (Unmarshal_User : string -> res User)
        (b : @Bot Command) (ctx : context) (x : exchange) (apiResp : Response) :
  Response_Ok apiResp = false ->
  let err := Errorf_s "API error: " (Response_Description apiResp) in
  Error err = "API error: " +:+ Response_Description apiResp /\
  (forall method body,
      decodes body x apiResp ->
      makeRequest b ctx method body x =
      ([HTTPPost (apiBaseURL b) (token b) method body], Some (Err err))) /\
  (forall method body x' t r,
      makeRequest b ctx method body x' = (t, Some (Val r)) ->
      Response_Ok r = true) /\
  (decodes payload_nil x apiResp ->
   snd (GetMe Unmarshal_User b ctx x) = Some (Some err)) /\
  (forall chatID text,
      decodes (payload_send {| SendMessageRequest_ChatID := chatID;
                               SendMessageRequest_Text := text |}) x apiResp ->
      snd (SendMessage b ctx chatID text x) = Some (Some err)) /\
  (decodes (payload_params (offset b) timeout) x apiResp ->
   snd (getUpdates Unmarshal_updates b ctx x) = Some (Err err)).
Proof.
  intros Hok err. split; [reflexivity|].
  split; [|split; [|split; [|split]]].
  - intros method body Hdec. rewrite (makeRequest_decodes _ _ _ _ _ _ Hdec).
    by rewrite Hok.
  - intros method body x' t r Hret.
    destruct (makeRequest_cases b ctx method body x') as (t' & r' & Heq & _ & Hr).
    rewrite Heq in Hret. injection Hret as _ ->. by destruct Hr.
  - intros Hdec. unfold GetMe.
    rewrite (makeRequest_decodes _ _ _ _ _ _ Hdec), Hok. reflexivity.
  - intros chatID text Hdec. unfold SendMessage.
    rewrite (makeRequest_decodes _ _ _ _ _ _ Hdec), Hok. reflexivity.
  - intros Hdec. unfold getUpdates.
    rewrite (makeRequest_decodes _ _ _ _ _ _ Hdec), Hok. reflexivity.
Qed.

Lemma makeRequest_ok_false_witness :
  let apiResp := {| Response_Ok := false; Response_Result := "";
                    Response_Description := "Unauthorized" |} in
  let x := {| Marshal_err := None; NewRequest_err := None; Do_err := None;
              ReadAll_err := None; Unmarshal_resp := Val apiResp |} in
  Response_Ok apiResp = false /\
  makeRequest (Command:=string) (NewBot "test-token") tt "getMe" payload_nil x =
  ([HTTPPost apiURL "test-token" "getMe" payload_nil],
   Some (Err (Errorf_s "API error: " "Unauthorized"))).
Proof.
  intros apiResp x. split; [reflexivity|].
  destruct (makeRequest_ok_false (Command:=string)
              (fun _ => Val []) (fun _ => Err (lib_error "unexpected end of JSON input"))
              (NewBot "test-token") tt x apiResp eq_refl)
    as (_ & Hreq & _).
  apply Hreq. repeat split; auto.
Defined.

(* ===================================================================== *)
(** ** Properties of the message handler *)
(* ===================================================================== *)

(** X9. The three branches of [handleMessage], for a message that carries its
    sender (and, in the echo branch, its chat): a command goes to the
    registry, if there is one, and the trace holds the log line and at most
    the handler call, no request; any other non-empty text is echoed by one
    [SendMessage] to the chat of the message, whose failure is logged and
    goes no further; an empty text does nothing. *)
Lemma handleMessage_cases {context Command : Type}
      (b : @Bot Command) (ctx : context) (msg : Message) (x : exchange)
      (from : User) :
  Message_From msg = Some from ->
  let line := Log ("Mensaje de " +:+ User_FirstName from +:+ ": "
                   +:+ Message_Text msg) in
  (strings.HasPrefix (Message_Text msg) "/" = true ->
   handleMessage b ctx msg x =
   (line :: match commandRegistry b with
            | Some cr => fst (Execute cr ctx b msg)
            | None => []
            end,
    Some tt) /\
   forall cr, commandRegistry b = Some cr ->
              fst (Execute cr ctx b msg) =
              match command_name (Message_Text msg) ≫= (registry cr !!.) with
              | Some action => [Call action ctx b msg]
              | None => []
              end) /\
  (strings.HasPrefix (Message_Text msg) "/" = false ->
   Message_Text msg <> EmptyString ->
   forall chat, Message_Chat msg = Some chat ->
   let send := SendMessage b ctx (Chat_ID chat)
                 ("Recibí tu mensaje: " +:+ Message_Text msg) x in
   handleMessage b ctx msg x =
   (line :: fst send ++
      match snd send with
      | Some (Some err) => [Log ("Error enviando mensaje: " +:+ Error err)]
      | _ => []
      end,
    Some tt)) /\
  (Message_Text msg = EmptyString ->
   handleMessage b ctx msg x = ([line], Some tt)).
Proof.
  intros Hfrom line. unfold handleMessage. rewrite Hfrom.
  split; [|split].
  - intros ->. split.
    + destruct (commandRegistry b) as [cr|]; [|reflexivity].
      rewrite Execute_command_name.
      destruct (command_name (Message_Text msg) ≫= (registry cr !!.));
        reflexivity.
    + intros cr _. rewrite Execute_command_name.
      destruct (command_name (Message_Text msg) ≫= (registry cr !!.));
        reflexivity.
  - intros -> Hne chat ->.
    apply String.eqb_neq in Hne. rewrite Hne. cbn [negb].
    unfold SendMessage.
    destruct (makeRequest_cases b ctx "sendMessage"
                (payload_send {| SendMessageRequest_ChatID := Chat_ID chat;
                                 SendMessageRequest_Text :=
                                   "Recibí tu mensaje: " +:+ Message_Text msg |}) x)
      as (t & r & Hreq & _ & _).
    run_M. rewrite Hreq.
    destruct r; cbn [fst snd app]; by rewrite ?app_nil_r.
  - intros Htext. subst line. rewrite Htext. reflexivity.
Qed.

(** C10. [handleMessage] reads [msg.From.FirstName] before anything else:
    on a message without sender it panics at once, with nothing logged,
    routed or sent, in both revisions of bot.go; a call that returns
    therefore had a sender. *)
Theorem handleMessage_nil_From {context Command : Type}
        (b : @Bot Command) (ctx : context) (msg : Message) (x : exchange) :
  (Message_From msg = None ->
   handleMessage b ctx msg x = ([], None) /\
   handleMessage_slog b ctx msg x = ([], None)) /\
  (is_Some (snd (handleMessage b ctx msg x)) -> is_Some (Message_From msg)) /\
  (is_Some (snd (handleMessage_slog b ctx msg x)) ->
   is_Some (Message_From msg)).
Proof.
  unfold handleMessage, handleMessage_slog.
  destruct (Message_From msg) as [from|].
  - split; [done|]. split; eauto.
  - split; [done|]. split; intros [? Hret]; discriminate Hret.
Qed.

Lemma handleMessage_nil_From_witness :
  let msg := {| Message_MessageID := 1; Message_From := None;
                Message_Chat := Some {| Chat_ID := 123; Chat_Type := "channel";
                                        Chat_Title := "news"; Chat_Username := "" |};
                Message_Date := 0; Message_Text := "/start" |} in
  let x := {| Marshal_err := None; NewRequest_err := None; Do_err := None;
              ReadAll_err := None;
              Unmarshal_resp := Val {| Response_Ok := true; Response_Result := "{}";
                                       Response_Description := "" |} |} in
  Message_From msg = None /\
  handleMessage (Command:=string) (NewBot "t") tt msg x = ([], None).
Proof.
  intros msg x. split; [reflexivity|].
  apply (proj1 (handleMessage_nil_From (Command:=string) (NewBot "t") tt msg x)).
  reflexivity.
Defined.

(** C7. The three-way split does not hold for every message: a channel
    post, which has no sender, makes [handleMessage] panic before it echoes
    anything. *)
Theorem handleMessage_echo_without_sender :
  let msg := {| Message_MessageID := 1; Message_From := None;
                Message_Chat := Some {| Chat_ID := 123; Chat_Type := "channel";
                                        Chat_Title := "news"; Chat_Username := "" |};
                Message_Date := 0; Message_Text := "Hello" |} in
  let x := {| Marshal_err := None; NewRequest_err := None; Do_err := None;
              ReadAll_err := None;
              Unmarshal_resp := Val {| Response_Ok := true;
                                       Response_Result := "{}";
                                       Response_Description := "" |} |} in
  strings.HasPrefix (Message_Text msg) "/" = false /\
  Message_Text msg <> EmptyString /\
  handleMessage (Command:=string) (NewBot "t") tt msg x = ([], None) /\
  handleMessage (Command:=string) (NewBot "t") tt
    {| Message_MessageID := 1;
       Message_From := Some {| User_ID := 5; User_FirstName := "Test";
                               User_LastName := ""; User_Username := "" |};
       Message_Chat := Message_Chat msg;
       Message_Date := 0; Message_Text := "Hello" |} x =
  ([Log "Mensaje de Test: Hello";
    HTTPPost apiURL "t" "sendMessage"
             (payload_send {| SendMessageRequest_ChatID := 123;
                              SendMessageRequest_Text :=
                                "Recibí tu mensaje: Hello" |})],
   Some tt).
Proof. repeat split. discriminate. Qed.

(* ===================================================================== *)
(** ** Properties of the polling loop *)
(* ===================================================================== *)

Lemma bind_val {context Command A B : Type} (t : list (@event context Command))
      (a : A) (k : A -> M B) :
  (t, Some a) ≫= k = (t ++ fst (k a), snd (k a)).
Proof. unfold mbind, M_bind, bind. by destruct (k a). Qed.

Lemma set_offset_id {Command : Type} (b : @Bot Command) :
  set_offset b (offset b) = b.
Proof. by destruct b. Qed.

(** The loop body never panics; it leaves the offset of the last update
    plus one, computed on [int], and starts one goroutine per message. *)
Lemma range_updates_eq {context Command : Type}
      (b : @Bot Command) (ctx : context) (updates : list Update) :
  range_updates b ctx updates =
  (spawned ctx updates,
   Some (set_offset b (offset_of_range (offset b) updates))).
Proof.
  revert b. induction updates as [|u us IH]; intros b.
  - cbn. by rewrite set_offset_id.
  - cbn [range_updates]. rewrite IH.
    unfold spawned, offset_of_range. cbn [omap list_omap fold_left].
    destruct (Update_Message u); reflexivity.
Qed.

Lemma int_add_incrementable (u : Z) : incrementable u -> int_add u 1 = u + 1.
Proof.
  unfold incrementable, int_add, wrap_int, min_int, max_int, int_bits.
  intros Hu. rewrite Z.mod_small; lia.
Qed.

(** Without overflow the loop body leaves the last id plus one. *)
Lemma offset_of_range_after (off : Z) (updates : list Update) :
  Forall incrementable (update_ids updates) ->
  offset_of_range off updates = offset_after off (update_ids updates).
Proof.
  unfold offset_of_range, offset_after, update_ids.
  revert off. induction updates as [|u us IH]; intros off Hinc; [done|].
  apply Forall_cons in Hinc as [Hu Hus]. cbn [fold_left map].
  rewrite (IH _ Hus), (int_add_incrementable _ Hu).
  destruct us as [|v us]; [reflexivity|]. cbn [map]. rewrite last_cons_cons.
  destruct (last _) eqn:Hlast; [reflexivity|]. by apply last_None in Hlast.
Qed.

(** In an ascending batch above [off], the last id plus one is above
    every id of the batch, and above [off]. *)
Lemma offset_after_bounds (off : Z) (ids : list Z) :
  batch_ok off ids ->
  off <= offset_after off ids /\ Forall (fun u => u < offset_after off ids) ids.
Proof.
  unfold batch_ok, offset_after. intros [Hs Hlo].
  induction ids as [|u ids IH]; [cbn; split; [lia|constructor]|].
  apply StronglySorted_inv in Hs as [Hs Hu].
  apply Forall_cons in Hlo as [Hou Hlo].
  destruct ids as [|v ids]; [cbn; split; [lia|repeat constructor; lia]|].
  specialize (IH Hs Hlo). revert IH. rewrite last_cons_cons.
  destruct (last (v :: ids)) as [un|] eqn:Hlast;
    [|by apply last_None in Hlast].
  intros [_ Hall]. apply Forall_cons in Hu as [Huv _].
  pose proof Hall as [Hv _]%Forall_cons.
  split; [lia|]. constructor; [lia|done].
Qed.

(** [getUpdates] never panics; if it sends a request, the request carries
    the offset of the bot; its errors are never a bare context error. *)
Lemma getUpdates_cases {context Command : Type}
      (Unmarshal_updates : string -> res (list Update))
      (b : @Bot Command) (ctx : context) (x : exchange) :
  exists t r, getUpdates Unmarshal_updates b ctx x = (t, Some r) /\
    (t = [] \/
     t = [HTTPPost (apiBaseURL b) (token b) "getUpdates"
                   (payload_params (offset b) timeout)]) /\
    match r with
    | Val _ => t <> []
    | Err err => is_context_error err = false
    end.
Proof.
  unfold getUpdates.
  destruct (makeRequest_cases b ctx "getUpdates"
              (payload_params (offset b) timeout) x) as (t & r & Hreq & Ht & Hr).
  rewrite Hreq, bind_val. destruct r as [resp|err].
  - destruct (Unmarshal_updates (Response_Result resp));
      cbn [fst snd ret]; rewrite app_nil_r; eauto 10.
    exists t. eexists. split; [done|]. split; [done|].
    destruct Ht as [-> | ->]; [|done].
    unfold makeRequest in Hreq. revert Hreq. clear.
    repeat case_match; run_M; congruence.
  - cbn [fst snd ret]; rewrite app_nil_r; eauto 10.
Qed.

Section Polling.

Context {context Command : Type}.
Variable Unmarshal_updates : string -> res (list Update).
Variable Unmarshal_User : string -> res User.
Implicit Types (b : @Bot Command) (ctx : context) (x : exchange)
         (turns rest : list turn) (t : list (@event context Command)).

Local Abbreviation getUpdates := (getUpdates Unmarshal_updates).
Local Abbreviation polling := (polling Unmarshal_updates).
Local Abbreviation GetMe := (GetMe Unmarshal_User).
Local Abbreviation Start := (Start Unmarshal_updates Unmarshal_User).

Lemma polling_done b ctx reason rest :
  polling b ctx (turn_done reason :: rest) =
  ([Log "Shutdown señalizado, cerrando bot..."],
   Some (b, Some (context_error reason))).
Proof. reflexivity. Qed.

(** A successful fetch: the loop body runs over the batch and the loop
    goes on with the new offset. *)
Lemma polling_fetch_ok b ctx x ctxErr rest t updates :
  getUpdates b ctx x = (t, Some (Val updates)) ->
  let b' := set_offset b (offset_of_range (offset b) updates) in
  polling b ctx (turn_default x ctxErr :: rest) =
  (t ++ spawned ctx updates ++ fst (polling b' ctx rest),
   snd (polling b' ctx rest)).
Proof.
  intros Hget b'. cbn [bot.polling]. rewrite Hget, bind_val.
  rewrite range_updates_eq, bind_val. reflexivity.
Qed.

(** A failed fetch with the context cancelled: the loop returns the
    context's error. *)
Lemma polling_fetch_cancelled b ctx x reason rest t err :
  getUpdates b ctx x = (t, Some (Err err)) ->
  polling b ctx (turn_default x (Some reason) :: rest) =
  (t, Some (b, Some (context_error reason))).
Proof.
  intros Hget. cbn [bot.polling]. rewrite Hget, bind_val.
  cbn [fst snd ret]. by rewrite app_nil_r.
Qed.

(** A failed fetch with the context alive: log, sleep, next turn, with
    the bot as it was. *)
Lemma polling_fetch_failed b ctx x rest t err :
  getUpdates b ctx x = (t, Some (Err err)) ->
  polling b ctx (turn_default x None :: rest) =
  (t ++ [Log ("Error obteniendo updates: " +:+ Error err); Sleep 3]
     ++ fst (polling b ctx rest),
   snd (polling b ctx rest)).
Proof.
  intros Hget. cbn [bot.polling]. rewrite Hget, bind_val.
  unfold emit. rewrite !bind_val. reflexivity.
Qed.

(** The loop never panics. *)
Lemma polling_total b ctx turns :
  exists t b' r, polling b ctx turns = (t, Some (b', r)).
Proof.
  revert b. induction turns as [|[reason|x ctxErr] rest IH]; intros b.
  - by exists [], b, None.
  - rewrite polling_done. eauto.
  - destruct (getUpdates_cases Unmarshal_updates b ctx x)
      as (t & [updates|err] & Hget & _).
    + rewrite (polling_fetch_ok _ _ _ _ _ _ _ Hget).
      destruct (IH (set_offset b (offset_of_range (offset b) updates)))
        as (t' & b' & r & ->). eauto.
    + destruct ctxErr as [reason|].
      * rewrite (polling_fetch_cancelled _ _ _ _ _ _ _ Hget). eauto.
      * rewrite (polling_fetch_failed _ _ _ _ _ _ Hget).
        destruct (IH b) as (t' & b' & r & ->). eauto.
Qed.

(** Running the turns [turns ++ rest] is running [turns] and, if the loop
    has not returned, [rest] from the state reached. *)
Lemma polling_app b ctx turns rest t b1 :
  polling b ctx turns = (t, Some (b1, None)) ->
  polling b ctx (turns ++ rest) =
  (t ++ fst (polling b1 ctx rest), snd (polling b1 ctx rest)).
Proof.
  revert b t. induction turns as [|[reason|x ctxErr] turns IH]; intros b t.
  - intros [= <- <-]. cbn [app]. by destruct (polling b ctx rest).
  - rewrite polling_done. intros [= _ _]; discriminate.
  - cbn [app].
    destruct (getUpdates_cases Unmarshal_updates b ctx x)
      as (tg & [updates|err] & Hget & _).
    + rewrite !(polling_fetch_ok _ _ _ _ _ _ _ Hget).
      destruct (polling_total (set_offset b (offset_of_range (offset b) updates))
                              ctx turns) as (t' & b' & r & Hrun).
      rewrite Hrun. cbn [fst snd]. intros [= <- <- ->].
      rewrite (IH _ _ Hrun). cbn [fst snd]. by rewrite <- !app_assoc.
    + destruct ctxErr as [reason|].
      * rewrite (polling_fetch_cancelled _ _ _ _ _ _ _ Hget). discriminate.
      * rewrite !(polling_fetch_failed _ _ _ _ _ _ Hget).
        destruct (polling_total b ctx turns) as (t' & b' & r & Hrun).
        rewrite Hrun. cbn [fst snd]. intros [= <- <- ->].
        rewrite (IH _ _ Hrun). cbn [fst snd]. by rewrite <- !app_assoc.
Qed.

(** [GetMe] never panics and sends nothing but its own request. *)
Lemma GetMe_cases b ctx x :
  exists t r, GetMe b ctx x = (t, Some r) /\
              Forall (fun e => is_fetch e = false) t.
Proof.
  unfold bot.GetMe.
  destruct (makeRequest_cases b ctx "getMe" payload_nil x)
    as (t & r & Hreq & Ht & _).
  rewrite Hreq, bind_val.
  assert (Forall (fun e => is_fetch e = false) t)
    by (destruct Ht as [-> | ->]; repeat constructor).
  destruct r as [resp|err]; [|run_M; rewrite app_nil_r; eauto].
  destruct (Unmarshal_User (Response_Result resp));
    run_M; rewrite ?app_nil_r; eauto.
  do 2 eexists. split; [done|]. apply Forall_app. split; [done|].
  repeat constructor.
Qed.

(** Once the identity check has passed, [Start] is the polling loop. *)
Lemma Start_verified b ctx x turns tg :
  GetMe b ctx x = (tg, Some None) ->
  Start b ctx x turns =
  (Log "Iniciando bot..." :: tg
     ++ Log "Esperando mensajes... (Ctrl+C para detener)"
     :: fst (polling b ctx turns),
   snd (polling b ctx turns)).
Proof.
  intros Hme. unfold bot.Start, emit.
  rewrite bind_val, Hme, bind_val, bind_val. reflexivity.
Qed.

Lemma Start_failed b ctx x turns tg cause :
  GetMe b ctx x = (tg, Some (Some cause)) ->
  Start b ctx x turns =
  (Log "Iniciando bot..." :: tg,
   Some (b, Some (Errorf_w "error verificando bot: " cause))).
Proof.
  intros Hme. unfold bot.Start, emit.
  rewrite bind_val, Hme, bind_val. cbn [fst snd ret app]. by rewrite app_nil_r.
Qed.

(** Turns added to a run that has not returned continue it. *)
Lemma Start_app b ctx x turns rest t b1 :
  Start b ctx x turns = (t, Some (b1, None)) ->
  Start b ctx x (turns ++ rest) =
  (t ++ fst (polling b1 ctx rest), snd (polling b1 ctx rest)).
Proof.
  destruct (GetMe_cases b ctx x) as (tg & [cause|] & Hme & _).
  - rewrite (Start_failed _ _ _ _ _ _ Hme). discriminate.
  - rewrite !(Start_verified _ _ _ _ _ Hme).
    destruct (polling_total b ctx turns) as (t' & b' & r & Hrun).
    rewrite Hrun. cbn [fst snd]. intros [= <- <- ->].
    rewrite (polling_app _ _ _ rest _ _ Hrun). cbn [fst snd app].
    by rewrite <- app_assoc.
Qed.

Lemma requested_offsets_no_fetch t :
  Forall (fun e => is_fetch e = false) t -> requested_offsets t = [].
Proof.
  unfold requested_offsets.
  induction 1 as [|e t He _ IH]; [done|]. cbn [omap list_omap].
  rewrite IH. destruct e as [| | base tok method body | | |]; try done.
  cbn [is_fetch] in He. destruct body; [done| |done]. by rewrite He.
Qed.

(** When the loop returns, it returns the error of the context. *)
Lemma polling_returns b ctx turns t b' e :
  polling b ctx turns = (t, Some (b', Some e)) ->
  exists reason, e = context_error reason.
Proof.
  revert b t. induction turns as [|[reason|x ctxErr] turns IH]; intros b t.
  - discriminate.
  - rewrite polling_done. intros [= _ _ <-]. eauto.
  - destruct (getUpdates_cases Unmarshal_updates b ctx x)
      as (tg & [updates|err] & Hget & _).
    + rewrite (polling_fetch_ok _ _ _ _ _ _ _ Hget).
      destruct (bot.polling _ _ ctx turns) as [t' r] eqn:Hrun.
      cbn [fst snd]. intros [= _ ->]. eauto.
    + destruct ctxErr as [reason|].
      * rewrite (polling_fetch_cancelled _ _ _ _ _ _ _ Hget).
        intros [= _ _ <-]. eauto.
      * rewrite (polling_fetch_failed _ _ _ _ _ _ Hget).
        destruct (bot.polling _ _ ctx turns) as [t' r] eqn:Hrun.
        cbn [fst snd]. intros [= _ ->]. eauto.
Qed.

(** Any number of failed fetches in a row, with the context alive, leaves
    the loop running, the bot unchanged, and one pause of 3 seconds per
    failure in the trace. *)
Lemma polling_all_fail b ctx turns :
  all_fail Unmarshal_updates ctx b turns ->
  exists t, polling b ctx turns = (t, Some (b, None)) /\
            sleeps t = replicate (length turns) 3.
Proof.
  unfold all_fail.
  induction 1 as [|[reason|x [reason|]] turns Hk _ IH]; try done.
  - by exists [].
  - destruct Hk as [err Herr]. destruct IH as (t' & Hrun & Hsl).
    destruct (getUpdates_cases Unmarshal_updates b ctx x)
      as (tg & r & Hget & Htg & _).
    rewrite Hget in Herr. cbn [snd] in Herr. injection Herr as ->.
    rewrite (polling_fetch_failed _ _ _ _ _ _ Hget), Hrun. cbn [fst snd].
    eexists. split; [done|]. unfold sleeps in *.
    rewrite !omap_app, Hsl. by destruct Htg as [-> | ->].
Qed.

(** C5. If the identity check fails, [Start] returns at once an error
    that wraps the cause, whatever the turns that would have followed, and
    its trace holds no [getUpdates] request. *)
Theorem Start_GetMe_fails b ctx x turns t cause :
  GetMe b ctx x = (t, Some (Some cause)) ->
  let err := Errorf_w "error verificando bot: " cause in
  Start b ctx x turns = (Log "Iniciando bot..." :: t, Some (b, Some err)) /\
  Unwrap err = Some cause /\
  Forall (fun e => is_fetch e = false) (fst (Start b ctx x turns)) /\
  requested_offsets (fst (Start b ctx x turns)) = [] /\
  Start b ctx x turns = Start b ctx x [].
Proof.
  intros Hme err.
  assert (Hnf : Forall (fun e => is_fetch e = false)
                       (fst (Start b ctx x turns))).
  { rewrite (Start_failed _ _ _ _ _ _ Hme). cbn [fst].
    destruct (GetMe_cases b ctx x) as (t' & r & Hme' & Ht').
    rewrite Hme in Hme'. injection Hme' as <- _. by constructor. }
  split; [by apply Start_failed|]. split; [reflexivity|].
  split; [exact Hnf|]. split; [by apply requested_offsets_no_fetch|].
  by rewrite !(Start_failed _ _ _ _ _ _ Hme).
Qed.

(** The comparison by [==] is what separates the outcomes: a startup
    error whose cause is a cancelled request still has [context.Canceled]
    in its chain. *)
Example startup_error_wraps_Canceled :
  let err := Errorf_w "error verificando bot: "
               (Errorf_w "error making request: " (context_error Canceled)) in
  is_context_error err = false /\ Is_Canceled err = true.
Proof. split; reflexivity. Qed.

(** C4. At any turn of a running loop, a fetch that fails while the
    context is cancelled makes [Start] return the context's error, not the
    fetch error; that error is a bare context error, which neither a fetch
    error nor the startup error ever is. *)
Theorem Start_cancelled_during_fetch b ctx x0 turns x reason rest t0 b1 t err :
  Start b ctx x0 turns = (t0, Some (b1, None)) ->
  getUpdates b1 ctx x = (t, Some (Err err)) ->
  Start b ctx x0 (turns ++ turn_default x (Some reason) :: rest) =
  (t0 ++ t, Some (b1, Some (context_error reason))) /\
  context_error reason <> err /\
  is_context_error (context_error reason) = true /\
  is_context_error err = false /\
  (forall cause,
      is_context_error (Errorf_w "error verificando bot: " cause) = false).
Proof.
  intros Hrun Hget.
  assert (Herr : is_context_error err = false).
  { destruct (getUpdates_cases Unmarshal_updates b1 ctx x)
      as (t' & r & Hget' & _ & Hr).
    rewrite Hget in Hget'. by injection Hget' as _ <-. }
  split; [|split; [|done]].
  - rewrite (Start_app _ _ _ _ _ _ _ Hrun).
    by rewrite (polling_fetch_cancelled _ _ _ _ _ _ _ Hget).
  - intros <-. discriminate Herr.
Qed.

(** C6. At any turn of a running loop, a fetch that fails while the
    context is alive is logged, followed by a pause of 3 seconds, and the
    loop takes its next turn with the bot unchanged; any number of such
    failures in a row leaves the loop running; [Start] never panics, and
    when it returns, it returns the context's error or the startup error. *)
Theorem Start_fetch_error_retries b ctx x0 :
  (forall turns t0 b1,
      Start b ctx x0 turns = (t0, Some (b1, None)) ->
      (forall x rest t err,
          getUpdates b1 ctx x = (t, Some (Err err)) ->
          Start b ctx x0 (turns ++ turn_default x None :: rest) =
          (t0 ++ t ++ [Log ("Error obteniendo updates: " +:+ Error err);
                       Sleep 3]
              ++ fst (polling b1 ctx rest),
           snd (polling b1 ctx rest))) /\
      (forall fails,
          all_fail Unmarshal_updates ctx b1 fails ->
          exists t,
            Start b ctx x0 (turns ++ fails) = (t0 ++ t, Some (b1, None)) /\
            sleeps t = replicate (length fails) 3)) /\
  (forall turns, exists t b' r,
        Start b ctx x0 turns = (t, Some (b', r)) /\
        match r with
        | None => True
        | Some e =>
          (exists reason, e = context_error reason) \/
          (exists cause, snd (GetMe b ctx x0) = Some (Some cause) /\
                         e = Errorf_w "error verificando bot: " cause)
        end).
Proof.
  split.
  - intros turns t0 b1 Hrun. split.
    + intros x rest t err Hget. rewrite (Start_app _ _ _ _ _ _ _ Hrun).
      by rewrite (polling_fetch_failed _ _ _ _ _ _ Hget).
    + intros fails Hfails.
      destruct (polling_all_fail _ _ _ Hfails) as (t & Hpoll & Hsl).
      exists t. by rewrite (Start_app _ _ _ _ _ _ _ Hrun), Hpoll.
  - intros turns.
    destruct (GetMe_cases b ctx x0) as (tg & [cause|] & Hme & _).
    + rewrite (Start_failed _ _ _ _ _ _ Hme). do 3 eexists. split; [done|].
      right. exists cause. by rewrite Hme.
    + rewrite (Start_verified _ _ _ _ _ Hme).
      destruct (polling_total b ctx turns) as (t' & b' & r & Hpoll).
      rewrite Hpoll. cbn [fst snd]. do 3 eexists. split; [done|].
      destruct r as [e|]; [|done]. left. by eapply polling_returns.
Qed.

Lemma requested_offsets_app t t' :
  requested_offsets (t ++ t') = requested_offsets t ++ requested_offsets t'.
Proof. apply omap_app. Qed.

Lemma requested_offsets_spawned ctx updates :
  requested_offsets (spawned (Command:=Command) ctx updates) = [].
Proof.
  apply requested_offsets_no_fetch. unfold spawned.
  induction updates as [|u us IH]; [constructor|]. cbn [omap list_omap].
  destruct (Update_Message u); cbn [fmap option_fmap option_map]; [|done].
  by constructor.
Qed.

(** A request that gets as far as being sent is in the trace. *)
Lemma makeRequest_sent b ctx method body x :
  Marshal_err x = None -> NewRequest_err x = None ->
  fst (makeRequest b ctx method body x) =
  [HTTPPost (apiBaseURL b) (token b) method body].
Proof.
  intros Hm Hn. unfold makeRequest. rewrite Hm, Hn.
  destruct body, (Do_err x), (ReadAll_err x),
    (Unmarshal_resp x) as [apiResp|];
    try destruct (Response_Ok apiResp); reflexivity.
Qed.

Lemma getUpdates_sent b ctx x :
  Marshal_err x = None -> NewRequest_err x = None ->
  requested_offsets (fst (getUpdates b ctx x)) = [offset b].
Proof.
  intros Hm Hn. unfold bot.getUpdates.
  pose proof (makeRequest_sent b ctx "getUpdates"
                (payload_params (offset b) timeout) x Hm Hn) as Hsent.
  destruct (makeRequest_cases b ctx "getUpdates"
              (payload_params (offset b) timeout) x) as (t & r & Hreq & _ & _).
  rewrite Hreq in Hsent |- *. cbn [fst] in Hsent. subst t.
  rewrite bind_val.
  destruct r as [resp|err];
    [destruct (Unmarshal_updates (Response_Result resp))|]; reflexivity.
Qed.

(** Under [fed_ok], the offset at the end of a run is not below the
    offset at its start, and the offsets requested along the run are in
    non-decreasing order. *)
Lemma polling_monotone b ctx turns :
  fed_ok Unmarshal_updates ctx b turns ->
  exists t b' r,
    polling b ctx turns = (t, Some (b', r)) /\
    offset b <= offset b' /\
    Forall (fun o => offset b <= o) (requested_offsets t) /\
    StronglySorted Z.le (requested_offsets t).
Proof.
  revert b. induction turns as [|[reason|x ctxErr] turns IH]; intros b Hfed.
  - exists [], b, None. repeat split; [lia|constructor..].
  - rewrite polling_done. do 3 eexists. repeat split; [lia|constructor..].
  - destruct (getUpdates_cases Unmarshal_updates b ctx x)
      as (tg & r & Hget & Htg & _).
    assert (Hreq : requested_offsets tg = [] \/
                   requested_offsets tg = [offset b])
      by (destruct Htg as [-> | ->]; auto).
    cbn [fed_ok] in Hfed. rewrite Hget in Hfed. cbn [snd] in Hfed.
    destruct r as [updates|err].
    + destruct Hfed as (Hok & Hinc & Hfed).
      rewrite (polling_fetch_ok _ _ _ _ _ _ _ Hget).
      destruct (IH _ Hfed) as (t' & b' & r' & -> & Hle & Hall & Hsorted).
      cbn [fst snd offset set_offset] in *.
      rewrite (offset_of_range_after _ _ Hinc) in Hle, Hall.
      destruct (offset_after_bounds _ _ Hok) as [Hup _].
      do 3 eexists. split; [done|]. split; [lia|].
      rewrite !requested_offsets_app, requested_offsets_spawned. cbn [app].
      assert (Hall' : Forall (fun o => offset b <= o) (requested_offsets t'))
        by (eapply Forall_impl; [exact Hall|]; cbn; intros; lia).
      destruct Hreq as [-> | ->]; cbn [app]; split; try done.
      * constructor; [lia|done].
      * by constructor.
    + destruct ctxErr as [reason|].
      * rewrite (polling_fetch_cancelled _ _ _ _ _ _ _ Hget).
        do 3 eexists. split; [done|]. split; [lia|].
        destruct Hreq as [-> | ->]; split; repeat constructor; lia.
      * rewrite (polling_fetch_failed _ _ _ _ _ _ Hget).
        destruct (IH _ Hfed) as (t' & b' & r' & -> & Hle & Hall & Hsorted).
        cbn [fst snd]. do 3 eexists. split; [done|]. split; [lia|].
        rewrite !requested_offsets_app.
        change (requested_offsets [Log _; Sleep 3]) with (@nil Z).
        cbn [app].
        destruct Hreq as [-> | ->]; cbn [app]; split; try done.
        -- constructor; [lia|done].
        -- by constructor.
Qed.

(** C1, amended. For a batch with strictly ascending ids, none below the
    current offset and none equal to the largest [int], the loop body sets
    the offset to each id plus one in turn and ends at the last id plus
    one, which is above every id of the batch and not below the offset it
    started from; the loop goes on from there, and a [getUpdates] request
    sent next carries exactly this offset.  Over any number of turns fed
    with such batches the offset never decreases, and neither do the
    offsets requested. *)
Theorem offset_advances b ctx :
  (forall updates,
      batch_ok (offset b) (update_ids updates) ->
      Forall incrementable (update_ids updates) ->
      let b' := set_offset b (offset_after (offset b) (update_ids updates)) in
      range_updates b ctx updates = (spawned ctx updates, Some b') /\
      offset b <= offset b' /\
      Forall (fun u => u < offset b') (update_ids updates) /\
      (forall pre u post,
          updates = pre ++ u :: post ->
          snd (range_updates b ctx (pre ++ [u])) =
          Some (set_offset b (Update_UpdateID u + 1))) /\
      (forall x ctxErr rest t,
          getUpdates b ctx x = (t, Some (Val updates)) ->
          polling b ctx (turn_default x ctxErr :: rest) =
          (t ++ spawned ctx updates ++ fst (polling b' ctx rest),
           snd (polling b' ctx rest))) /\
      (forall x,
          Marshal_err x = None -> NewRequest_err x = None ->
          requested_offsets (fst (getUpdates b' ctx x)) =
          [offset_after (offset b) (update_ids updates)])) /\
  (forall turns,
      fed_ok Unmarshal_updates ctx b turns ->
      exists t b' r,
        polling b ctx turns = (t, Some (b', r)) /\
        offset b <= offset b' /\
        Forall (fun o => offset b <= o) (requested_offsets t) /\
        StronglySorted Z.le (requested_offsets t)).
Proof.
  split; [|apply polling_monotone].
  intros updates Hok Hinc b'.
  assert (Hb' : set_offset b (offset_of_range (offset b) updates) = b')
    by (unfold b'; by rewrite (offset_of_range_after _ _ Hinc)).
  destruct (offset_after_bounds _ _ Hok) as [Hle Hlt].
  split; [by rewrite range_updates_eq, Hb'|].
  split; [exact Hle|]. split; [exact Hlt|]. split; [|split].
  - intros pre u post ->. rewrite range_updates_eq. cbn [snd].
    unfold offset_of_range. rewrite fold_left_app. cbn [fold_left].
    rewrite int_add_incrementable; [done|].
    unfold update_ids in Hinc. rewrite map_app in Hinc.
    apply Forall_app in Hinc as [_ Hinc]. by apply Forall_cons in Hinc as [? _].
  - intros x ctxErr rest t Hget.
    rewrite (polling_fetch_ok _ _ _ _ _ _ _ Hget). by rewrite Hb'.
  - intros x Hm Hn. by rewrite (getUpdates_sent _ _ _ Hm Hn).
Qed.

End Polling.

(** C1, as the spec words it, fails at the largest [int]: the batch is
    ascending and above the offset, yet the offset it leaves is the
    smallest [int], below the offset the loop started from. *)
Lemma offset_overflow_counterexample :
  let b := NewBot (Command:=string) "t" in
  let updates := [{| Update_UpdateID := 9223372036854775807;
                     Update_Message := None |}] in
  batch_ok (offset b) (update_ids updates) /\
  min_int <= 9223372036854775807 <= max_int /\
  exists b', range_updates b tt updates = ([], Some b') /\
             offset b' = -9223372036854775808 /\
             offset b' <> 9223372036854775807 + 1 /\
             offset b' < offset b.
Proof.
  intros b updates. split; [|split].
  - split; repeat constructor. cbn. lia.
  - vm_compute. split; discriminate.
  - eexists. split; [reflexivity|]. split; [reflexivity|].
    split; [discriminate | reflexivity].
Qed.

Lemma offset_advances_witness :
  let b := NewBot (Command:=string) "t" in
  batch_ok (offset b) (update_ids sample_updates) /\
  Forall incrementable (update_ids sample_updates) /\
  range_updates b tt sample_updates = ([], Some (set_offset b 8)) /\
  fed_ok sample_Unmarshal_updates tt b
         [turn_default (exchange_of envelope_ok) None] /\
  exists t b' r,
    polling sample_Unmarshal_updates b tt
            [turn_default (exchange_of envelope_ok) None]
    = (t, Some (b', r)) /\ offset b <= offset b'.
Proof.
  intros b.
  assert (Hok : batch_ok (offset b) (update_ids sample_updates))
    by (split; repeat constructor; cbn; lia).
  assert (Hinc : Forall incrementable (update_ids sample_updates))
    by (repeat constructor; vm_compute; discriminate).
  assert (Hfed : fed_ok sample_Unmarshal_updates tt b
                        [turn_default (exchange_of envelope_ok) None])
    by (cbn; auto).
  destruct (offset_advances sample_Unmarshal_updates b tt)
    as [Hbatch Hturns].
  split; [exact Hok|]. split; [exact Hinc|].
  split; [exact (proj1 (Hbatch sample_updates Hok Hinc))|].
  split; [exact Hfed|].
  destruct (Hturns _ Hfed) as (t & b' & r & Hrun & Hle & _). eauto.
Defined.

Lemma Start_GetMe_fails_witness :
  let b := NewBot (Command:=string) "test-token" in
  let x := exchange_of envelope_unauthorized in
  let cause := Errorf_s "API error: " "Unauthorized" in
  GetMe sample_Unmarshal_User b tt x
  = ([HTTPPost apiURL "test-token" "getMe" payload_nil], Some (Some cause)) /\
  Start sample_Unmarshal_updates sample_Unmarshal_User b tt x
        [turn_default (exchange_of envelope_ok) None]
  = ([Log "Iniciando bot...";
      HTTPPost apiURL "test-token" "getMe" payload_nil],
     Some (b, Some (Errorf_w "error verificando bot: " cause))).
Proof.
  intros b x cause.
  assert (Hme : GetMe sample_Unmarshal_User b tt x
                = ([HTTPPost apiURL "test-token" "getMe" payload_nil],
                   Some (Some cause))) by reflexivity.
  split; [exact Hme|].
  exact (proj1 (Start_GetMe_fails sample_Unmarshal_updates sample_Unmarshal_User
                  b tt x _ _ cause Hme)).
Defined.

Lemma Start_cancelled_during_fetch_witness :
  let b := NewBot (Command:=string) "test-token" in
  let x0 := exchange_of envelope_ok in
  let x := exchange_failing (lib_error "Post: context canceled") in
  snd (Start sample_Unmarshal_updates sample_Unmarshal_User b tt x0 [])
  = Some (b, None) /\
  snd (getUpdates sample_Unmarshal_updates b tt x)
  = Some (Err (Errorf_w "error making request: "
                        (lib_error "Post: context canceled"))) /\
  snd (Start sample_Unmarshal_updates sample_Unmarshal_User b tt x0
             ([] ++ [turn_default x (Some Canceled)]))
  = Some (b, Some (context_error Canceled)).
Proof.
  intros b x0 x. split; [reflexivity|]. split; [reflexivity|].
  destruct (Start_cancelled_during_fetch
              sample_Unmarshal_updates sample_Unmarshal_User
              b tt x0 [] x Canceled [] _ b _ _ eq_refl eq_refl) as [-> _].
  reflexivity.
Defined.

Lemma Start_fetch_error_retries_witness :
  let b := NewBot (Command:=string) "test-token" in
  let x0 := exchange_of envelope_ok in
  let x := exchange_failing (lib_error "connection refused") in
  snd (Start sample_Unmarshal_updates sample_Unmarshal_User b tt x0 [])
  = Some (b, None) /\
  all_fail sample_Unmarshal_updates tt b
           [turn_default x None; turn_default x None] /\
  exists t : list (@event unit string),
    snd (Start sample_Unmarshal_updates sample_Unmarshal_User b tt x0
               ([] ++ [turn_default x None; turn_default x None]))
    = Some (b, None) /\
    sleeps t = [3; 3].
Proof.
  intros b x0 x. split; [reflexivity|].
  assert (Hfail : all_fail sample_Unmarshal_updates tt b
                           [turn_default x None; turn_default x None])
    by (repeat constructor; eexists; reflexivity).
  split; [exact Hfail|].
  destruct (proj1 (Start_fetch_error_retries
                     sample_Unmarshal_updates sample_Unmarshal_User b tt x0)
                  [] _ b eq_refl) as [_ Hmany].
  destruct (Hmany _ Hfail) as (t & -> & Hsl). eauto.
Defined.

(* ===================================================================== *)
(** ** Further properties of command.go *)
(* ===================================================================== *)

Lemma String_append_cons (c : ascii) (s1 s2 : string) :
  String c s1 +:+ s2 = String c (s1 +:+ s2).
Proof. reflexivity. Qed.

(** No piece of a split holds the separator. *)
Lemma Split_no_sep (s : string) (sep : ascii) :
  forallb (no_byte sep) (strings.Split s sep) = true.
Proof.
  induction s as [|c s IH]; [done|]. cbn [strings.Split].
  destruct (Ascii.eqb c sep) eqn:Hc; [exact IH|].
  destruct (Split_cons s sep) as (p & ps & Hsp). rewrite Hsp in *.
  cbn [forallb no_byte] in *. by rewrite Hc.
Qed.

(** [strings.Split] cuts at every separator and loses nothing: no
    piece holds the separator, and joining the pieces with it gives the
    string back. *)
Theorem Split_Join (s : string) (sep : ascii) :
  strings.Join (strings.Split s sep) sep = s /\
  forallb (no_byte sep) (strings.Split s sep) = true.
Proof.
  split; [|apply Split_no_sep].
  induction s as [|c s IH]; [done|]. cbn [strings.Split].
  destruct (Split_cons s sep) as (p & ps & Hsp). rewrite Hsp in *.
  destruct (Ascii.eqb c sep) eqn:Hc.
  - apply Ascii.eqb_eq in Hc as ->.
    change (strings.Join (EmptyString :: p :: ps) sep)
      with (String sep (strings.Join (p :: ps) sep)).
    by rewrite IH.
  - destruct ps as [|q ps]; [cbn in *; by rewrite IH|].
    change (strings.Join (String c p :: q :: ps) sep)
      with (String c (strings.Join (p :: q :: ps) sep)).
    by rewrite IH.
Qed.

(** Once a field has started, it is the first field returned, whatever
    follows. *)
Lemma fields_loop_first (f : N -> bool) (rs : list (N * string)) (w : string) :
  exists suffix rest,
    strings.fields_loop f rs (Some w) = (w +:+ suffix) :: rest.
Proof.
  revert w. induction rs as [|[r bs] rs IH]; intros w; cbn [strings.fields_loop].
  - exists EmptyString, []. f_equal.
    induction w as [|c w IHw]; [done|].
    rewrite String_append_cons. by rewrite <- IHw.
  - destruct (f r).
    + exists EmptyString. eexists. f_equal.
      induction w as [|c w IHw]; [done|].
      rewrite String_append_cons. by rewrite <- IHw.
    + destruct (IH (w +:+ bs)) as (suffix & rest & ->).
      exists (bs +:+ suffix), rest. by rewrite append_assoc.
Qed.

(** X1. A text that starts with the marker always has a first token, and
    this token starts with the marker: in [Execute] the guard
    [len(parts) == 0] never fires and [TrimPrefix] always removes exactly
    the marker. *)
Theorem Fields_of_command (text : string) :
  strings.HasPrefix text "/" = true ->
  exists tok rest,
    strings.Fields text = String "/" tok :: rest /\
    strings.TrimPrefix (String "/" tok) "/" = tok.
Proof.
  destruct text as [|c text]; [discriminate|].
  cbn [strings.HasPrefix]. intros [Hc _]%andb_prop.
  apply Ascii.eqb_eq in Hc as <-.
  unfold strings.Fields, strings.FieldsFunc.
  change (strings.runes (String "/" text))
    with ((47%N, "/"%string) :: strings.runes text).
  cbn [strings.fields_loop]. change (strings.IsSpace 47) with false. cbn iota.
  destruct (fields_loop_first strings.IsSpace (strings.runes text) "/")
    as (suffix & rest & ->).
  exists suffix, rest. split; reflexivity.
Qed.

Lemma Fields_of_command_witness :
  strings.HasPrefix "/help@mybot arg1" "/" = true /\
  exists tok rest,
    strings.Fields "/help@mybot arg1" = String "/" tok :: rest /\
    strings.TrimPrefix (String "/" tok) "/" = tok.
Proof.
  split; [reflexivity|]. apply Fields_of_command. reflexivity.
Defined.

(** The name a text selects never holds an [@]. *)
Lemma command_name_no_at (text name : string) :
  command_name text = Some name -> no_byte "@" name = true.
Proof.
  unfold command_name. destruct (strings.HasPrefix text "/"); [|done].
  destruct (strings.Fields text) as [|part0 parts]; [done|].
  pose proof (Split_no_sep (strings.TrimPrefix part0 "/") "@") as Hall.
  destruct (strings.Split (strings.TrimPrefix part0 "/") "@") as [|p ps];
    [done|].
  cbn [head forallb] in *. intros [= <-]. by apply andb_prop in Hall as [? _].
Qed.

(** X2. [Execute] never panics and calls at most one handler: either the
    text selects a registered name, the handler of that name is called
    once on the message and the result is [true], or nothing is called and
    the result is [false]. On an empty table it is always the latter. *)
Theorem Execute_outcome {context Command : Type}
        (cr : @CommandRegistry Command) (ctx : context) (bot : Bot)
        (msg : Message) :
  ((exists name action,
       command_name (Message_Text msg) = Some name /\
       registry cr !! name = Some action /\
       Execute cr ctx bot msg = ([Call action ctx bot msg], Some true)) \/
   ((forall name, command_name (Message_Text msg) = Some name ->
                  registry cr !! name = None) /\
    Execute cr ctx bot msg = ([], Some false))) /\
  Execute NewCommandRegistry ctx bot msg = ([], Some false).
Proof.
  split.
  - rewrite Execute_command_name.
    destruct (command_name (Message_Text msg)) as [name|];
      cbn [mbind option_bind]; [|right; split; [done|reflexivity]].
    destruct (registry cr !! name) as [action|] eqn:Hreg.
    + left. by exists name, action.
    + right. split; [|reflexivity]. by intros ? [= <-].
  - rewrite Execute_command_name.
    destruct (command_name (Message_Text msg)) as [name|];
      cbn [mbind option_bind]; [|reflexivity].
    cbn [NewCommandRegistry registry]. by rewrite lookup_empty.
Qed.

(** X3. Registering a handler touches its own name only: every other name
    keeps its binding, messages that select another name are executed as
    before, and registrations under different names commute. *)
Theorem Register_other_names {context Command : Type}
        (cr : @CommandRegistry Command) (name name' : string)
        (H H' : Command) :
  name <> name' ->
  registry (Register cr name H) !! name' = registry cr !! name' /\
  Register (Register cr name H) name' H' =
  Register (Register cr name' H') name H /\
  (forall (ctx : context) bot msg,
      command_name (Message_Text msg) = Some name' ->
      Execute (Register cr name H) ctx bot msg = Execute cr ctx bot msg).
Proof.
  intros Hne. unfold Register; cbn [registry].
  assert (Hother : <[name:=H]> (registry cr) !! name' = registry cr !! name')
    by by apply lookup_insert_ne.
  split; [exact Hother|]. split.
  - f_equal. by apply insert_insert_ne.
  - intros ctx bot msg Hsel. rewrite !Execute_command_name, Hsel.
    cbn [mbind option_bind registry]. by rewrite Hother.
Qed.

Lemma Register_other_names_witness :
  let cr := Register NewCommandRegistry "start" "startHandler"%string in
  let msg := {| Message_MessageID := 1; Message_From := None;
                Message_Chat := None; Message_Date := 0;
                Message_Text := "/start now" |} in
  "help"%string <> "start"%string /\
  Execute (Register cr "help" "helpHandler"%string) tt (NewBot "t") msg
  = ([Call "startHandler"%string tt (NewBot "t") msg], Some true).
Proof.
  intros cr msg.
  assert (Hne : "help"%string <> "start"%string) by discriminate.
  split; [exact Hne|].
  destruct (Register_other_names (context:=unit) cr "help" "start"
              "helpHandler"%string "helpHandler"%string Hne)
    as (_ & _ & Hexec).
  rewrite (Hexec tt (NewBot "t") msg eq_refl). vm_compute. reflexivity.
Defined.

(** X4. A name that holds an [@] can be registered but never executed:
    [Execute] cuts the token at its first [@] before the lookup, so with
    such a name registered every message is executed as without it. *)
Theorem Register_name_with_at {context Command : Type}
        (cr : @CommandRegistry Command) (name : string) (H : Command)
        (ctx : context) (bot : Bot) (msg : Message) :
  no_byte "@" name = false ->
  Execute (Register cr name H) ctx bot msg = Execute cr ctx bot msg.
Proof.
  intros Hat. rewrite !Execute_command_name.
  destruct (command_name (Message_Text msg)) as [sel|] eqn:Hsel;
    cbn [mbind option_bind]; [|done].
  apply command_name_no_at in Hsel.
  unfold Register; cbn [registry].
  rewrite lookup_insert_ne; [done|]. intros ->. congruence.
Qed.

Lemma Register_name_with_at_witness :
  let msg := {| Message_MessageID := 1; Message_From := None;
                Message_Chat := None; Message_Date := 0;
                Message_Text := "/start@mybot" |} in
  no_byte "@" "start@mybot" = false /\
  Execute (Register NewCommandRegistry "start@mybot" "H"%string)
          tt (NewBot "t") msg = ([], Some false).
Proof.
  intros msg. split; [reflexivity|].
  rewrite (Register_name_with_at (context:=unit) NewCommandRegistry
             "start@mybot" "H"%string tt (NewBot "t") msg eq_refl).
  vm_compute. reflexivity.
Defined.

(* ===================================================================== *)
(** ** Further properties of the requests of bot.go *)
(* ===================================================================== *)

Lemma makeRequest_Val_inv {context Command : Type}
      (b : @Bot Command) (ctx : context) method body x r :
  snd (makeRequest b ctx method body x) = Some (Val r) ->
  decodes body x r /\ Response_Ok r = true.
Proof.
  unfold makeRequest, decodes.
  destruct (Marshal_err x) as [e1|], (NewRequest_err x) as [e2|],
    (Do_err x) as [e3|], (ReadAll_err x) as [e4|],
    (Unmarshal_resp x) as [apiResp|e5];
    try destruct (Response_Ok apiResp) eqn:Hok;
    destruct body; cbn; intros [= <-] || intros [=]; auto 10.
Qed.

(** X5. [makeRequest] succeeds exactly when all five library calls pass
    and the envelope has [ok = true], and it hands out that envelope.  The
    HTTP request is sent, once, exactly when the payload could be
    marshalled (a nil payload is not marshalled) and the request object
    built; otherwise nothing is sent. *)
Theorem makeRequest_outcome {context Command : Type}
        (b : @Bot Command) (ctx : context) (method : string)
        (body : payload) (x : exchange) :
  (forall r, snd (makeRequest b ctx method body x) = Some (Val r) <->
             decodes body x r /\ Response_Ok r = true) /\
  ((body = payload_nil \/ Marshal_err x = None) /\ NewRequest_err x = None ->
   fst (makeRequest b ctx method body x) =
   [HTTPPost (apiBaseURL b) (token b) method body]) /\
  (~ ((body = payload_nil \/ Marshal_err x = None) /\ NewRequest_err x = None) ->
   fst (makeRequest b ctx method body x) = [] /\
   exists err, snd (makeRequest b ctx method body x) = Some (Err err)).
Proof.
  split; [|split].
  - intros r. split; [apply makeRequest_Val_inv|].
    intros [Hdec Hok]. by rewrite (makeRequest_decodes _ _ _ _ _ _ Hdec), Hok.
  - intros [Hm Hn]. unfold makeRequest.
    assert (match body with payload_nil => None | _ => Marshal_err x end = None)
      as -> by (destruct Hm as [-> | ->]; [done | by destruct body]).
    rewrite Hn.
    destruct (Do_err x), (ReadAll_err x), (Unmarshal_resp x) as [apiResp|];
      try destruct (Response_Ok apiResp); reflexivity.
  - intros Hnot. unfold makeRequest.
    destruct body, (Marshal_err x) as [e1|], (NewRequest_err x) as [e2|];
      try (exfalso; apply Hnot; by auto); cbn; eauto.
Qed.

Lemma makeRequest_outcome_witness :
  let x := {| Marshal_err := Some (lib_error "json: unsupported value");
              NewRequest_err := None; Do_err := None; ReadAll_err := None;
              Unmarshal_resp := Val envelope_ok |} in
  fst (makeRequest (context:=unit) (Command:=string) (NewBot "t") tt
                   "getMe" payload_nil x)
  = [HTTPPost apiURL "t" "getMe" payload_nil] /\
  fst (makeRequest (context:=unit) (Command:=string) (NewBot "t") tt
                   "getUpdates" (payload_params 0 60) x) = [].
Proof.
  intros x.
  destruct (makeRequest_outcome (context:=unit) (Command:=string)
              (NewBot "t") tt "getMe" payload_nil x) as (_ & Hsent & _).
  destruct (makeRequest_outcome (context:=unit) (Command:=string)
              (NewBot "t") tt "getUpdates" (payload_params 0 60) x)
    as (_ & _ & Hnot).
  split; [apply Hsent; auto|].
  apply Hnot. intros [[Hnil | Hm] _]; discriminate.
Defined.

Section Requests.

Context {context Command : Type}.
Variable Unmarshal_updates : string -> res (list Update).
Variable Unmarshal_User : string -> res User.
Implicit Types (b : @Bot Command) (ctx : context) (x : exchange).

(** X6. [getUpdates] hands out a batch exactly when its request, which
    carries the current offset and the long-poll timeout of 60, gets an
    envelope with [ok = true] whose result decodes to that batch; a result
    that does not decode gives the decoder's error, wrapped. *)
Theorem getUpdates_outcome b ctx x :
  (forall updates,
      snd (getUpdates Unmarshal_updates b ctx x) = Some (Val updates) <->
      exists resp, decodes (payload_params (offset b) 60) x resp /\
                   Response_Ok resp = true /\
                   Unmarshal_updates (Response_Result resp) = Val updates) /\
  (forall resp err,
      decodes (payload_params (offset b) 60) x resp ->
      Response_Ok resp = true ->
      Unmarshal_updates (Response_Result resp) = Err err ->
      getUpdates Unmarshal_updates b ctx x =
      ([HTTPPost (apiBaseURL b) (token b) "getUpdates"
                 (payload_params (offset b) 60)],
       Some (Err (Errorf_w "error unmarshaling updates: " err)))).
Proof.
  split.
  - intros updates. unfold getUpdates. split.
    + destruct (makeRequest_cases b ctx "getUpdates"
                  (payload_params (offset b) timeout) x)
        as (t & r & Hreq & _ & _).
      pose proof (makeRequest_Val_inv b ctx "getUpdates"
                    (payload_params (offset b) timeout) x) as Hinv.
      rewrite Hreq in Hinv |- *. rewrite bind_val. cbn [snd] in *.
      destruct r as [resp|err]; [|discriminate].
      destruct (Hinv resp eq_refl) as [Hdec Hok].
      destruct (Unmarshal_updates (Response_Result resp)) eqn:Hu;
        cbn [snd ret]; intros [= <-]. eauto.
    + intros (resp & Hdec & Hok & Hu).
      rewrite (makeRequest_decodes _ _ _ _ _ _ Hdec), Hok, bind_val.
      by rewrite Hu.
  - intros resp err Hdec Hok Hu. unfold getUpdates.
    rewrite (makeRequest_decodes _ _ _ _ _ _ Hdec), Hok, bind_val.
    by rewrite Hu.
Qed.



End Requests.

(* ===================================================================== *)
(** ** Further properties of the message handler *)
(* ===================================================================== *)

Lemma handleMessage_cases_witness :
  let msg := {| Message_MessageID := 1;
                Message_From := Some {| User_ID := 5; User_FirstName := "Test";
                                        User_LastName := ""; User_Username := "" |};
                Message_Chat := Some {| Chat_ID := 123; Chat_Type := "private";
                                        Chat_Title := ""; Chat_Username := "" |};
                Message_Date := 0; Message_Text := "Hello" |} in
  let x := exchange_failing (lib_error "connection refused") in
  is_Some (Message_From msg) /\
  handleMessage (context:=unit) (Command:=string) (NewBot "t") tt msg x =
  ([Log "Mensaje de Test: Hello";
    HTTPPost apiURL "t" "sendMessage"
             (payload_send {| SendMessageRequest_ChatID := 123;
                              SendMessageRequest_Text :=
                                "Recibí tu mensaje: Hello" |});
    Log "Error enviando mensaje: error making request: connection refused"],
   Some tt).
Proof.
  intros msg x. split; [by eexists|].
  destruct (handleMessage_cases (context:=unit) (Command:=string)
              (NewBot "t") tt msg x _ eq_refl) as (_ & Hecho & _).
  rewrite (Hecho eq_refl ltac:(discriminate) _ eq_refl). reflexivity.
Defined.

(** X10. A message with a sender but without chat: [handleMessage] panics
    on [msg.Chat.ID] only in the echo branch, after the log line and
    before anything is sent; commands and empty texts do not need the
    chat.  The revision that logs through [log/slog] reads the chat for
    its first log record and panics on every such message, with nothing
    logged. *)
Theorem handleMessage_nil_Chat {context Command : Type}
        (b : @Bot Command) (ctx : context) (msg : Message) (x : exchange)
        (from : User) :
  Message_From msg = Some from ->
  Message_Chat msg = None ->
  (strings.HasPrefix (Message_Text msg) "/" = false ->
   Message_Text msg <> EmptyString ->
   handleMessage b ctx msg x =
   ([Log ("Mensaje de " +:+ User_FirstName from +:+ ": "
          +:+ Message_Text msg)], None)) /\
  (strings.HasPrefix (Message_Text msg) "/" = true \/
   Message_Text msg = EmptyString ->
   snd (handleMessage b ctx msg x) = Some tt) /\
  handleMessage_slog b ctx msg x = ([], None).
Proof.
  intros Hfrom Hchat. split; [|split].
  - intros Hpre Hne. unfold handleMessage.
    rewrite Hfrom, Hpre, Hchat. apply String.eqb_neq in Hne. by rewrite Hne.
  - intros Htext. unfold handleMessage. rewrite Hfrom.
    destruct (strings.HasPrefix (Message_Text msg) "/") eqn:Hpre.
    + destruct (commandRegistry b) as [cr|]; [|reflexivity].
      rewrite Execute_command_name.
      by destruct (command_name (Message_Text msg) ≫= (registry cr !!.)).
    + destruct Htext as [? | ->]; [done|]. reflexivity.
  - unfold handleMessage_slog. by rewrite Hfrom, Hchat.
Qed.

Lemma handleMessage_nil_Chat_witness :
  let from := {| User_ID := 5; User_FirstName := "Test";
                 User_LastName := ""; User_Username := "" |} in
  let msg := {| Message_MessageID := 1; Message_From := Some from;
                Message_Chat := None; Message_Date := 0;
                Message_Text := "Hello" |} in
  Message_From msg = Some from /\ Message_Chat msg = None /\
  handleMessage (context:=unit) (Command:=string) (NewBot "t") tt msg
                (exchange_of envelope_ok)
  = ([Log "Mensaje de Test: Hello"], None).
Proof.
  intros from msg. split; [reflexivity|]. split; [reflexivity|].
  destruct (handleMessage_nil_Chat (context:=unit) (Command:=string)
              (NewBot "t") tt msg (exchange_of envelope_ok) from
              eq_refl eq_refl) as (Hecho & _).
  apply Hecho; [reflexivity | discriminate].
Defined.

Lemma effects_app {context Command : Type}
      (t t' : list (@event context Command)) :
  effects (t ++ t') = effects t ++ effects t'.
Proof. apply omap_app. Qed.

(** The two revisions of [makeRequest] return the same value and send the
    same request; the later one adds log records only. *)
Lemma makeRequest_slog_agrees {context Command : Type}
      (b : @Bot Command) (ctx : context) method body x :
  snd (makeRequest_slog b ctx method body x) =
  snd (makeRequest b ctx method body x) /\
  effects (fst (makeRequest_slog b ctx method body x)) =
  fst (makeRequest b ctx method body x).
Proof.
  unfold makeRequest_slog, makeRequest.
  destruct body, (Marshal_err x), (NewRequest_err x), (Do_err x),
    (ReadAll_err x), (Unmarshal_resp x) as [apiResp|];
    try destruct (Response_Ok apiResp); split; reflexivity.
Qed.

(** X11. For a message with sender and chat the two revisions of
    [handleMessage], each with the [makeRequest] of its own revision,
    differ in their log records only: they call the same handler or send
    the same request, and both return. *)
Theorem handleMessage_revisions_agree {context Command : Type}
        (b : @Bot Command) (ctx : context) (msg : Message) (x : exchange)
        (from : User) (chat : Chat) :
  Message_From msg = Some from ->
  Message_Chat msg = Some chat ->
  effects (fst (handleMessage_slog b ctx msg x)) =
  effects (fst (handleMessage b ctx msg x)) /\
  snd (handleMessage_slog b ctx msg x) = Some tt /\
  snd (handleMessage b ctx msg x) = Some tt.
Proof.
  intros Hfrom Hchat. unfold handleMessage, handleMessage_slog.
  rewrite Hfrom, Hchat.
  destruct (strings.HasPrefix (Message_Text msg) "/").
  - destruct (commandRegistry b) as [cr|]; [|done].
    rewrite Execute_command_name.
    by destruct (command_name (Message_Text msg) ≫= (registry cr !!.)).
  - destruct (String.eqb (Message_Text msg) ""); [done|]. cbn [negb].
    unfold SendMessage, SendMessage_slog.
    set (body := payload_send
                   {| SendMessageRequest_ChatID := Chat_ID chat;
                      SendMessageRequest_Text :=
                        "Recibí tu mensaje: " +:+ Message_Text msg |}).
    destruct (makeRequest_cases b ctx "sendMessage" body x)
      as (t & r & Hreq & Ht & _).
    destruct (makeRequest_slog_agrees b ctx "sendMessage" body x)
      as [Hsnd Heff].
    destruct (makeRequest_slog b ctx "sendMessage" body x) as [ts rs] eqn:Hs.
    rewrite Hreq in Hsnd, Heff. cbn [fst snd] in Hsnd, Heff. subst rs.
    run_M. fold body. rewrite Hreq, Hs.
    assert (Ht' : effects t = t) by (destruct Ht as [-> | ->]; reflexivity).
    destruct r; cbn [fst snd app]; (split; [|done]);
      change (effects (Slog "INFO" ?m ?a :: ?l)) with (effects l);
      change (effects (Log ?m :: ?l)) with (effects l);
      rewrite !effects_app, Heff, Ht'; reflexivity.
Qed.

Lemma handleMessage_revisions_agree_witness :
  let from := {| User_ID := 5; User_FirstName := "Test";
                 User_LastName := ""; User_Username := "" |} in
  let chat := {| Chat_ID := 123; Chat_Type := "private";
                 Chat_Title := ""; Chat_Username := "" |} in
  let msg := {| Message_MessageID := 1; Message_From := Some from;
                Message_Chat := Some chat; Message_Date := 0;
                Message_Text := "Hello" |} in
  Message_From msg = Some from /\ Message_Chat msg = Some chat /\
  effects (fst (handleMessage_slog (context:=unit) (Command:=string)
                  (NewBot "t") tt msg (exchange_of envelope_ok)))
  = [HTTPPost apiURL "t" "sendMessage"
              (payload_send {| SendMessageRequest_ChatID := 123;
                               SendMessageRequest_Text :=
                                 "Recibí tu mensaje: Hello" |})].
Proof.
  intros from chat msg. split; [reflexivity|]. split; [reflexivity|].
  rewrite (proj1 (handleMessage_revisions_agree (context:=unit) (Command:=string)
                    (NewBot "t") tt msg (exchange_of envelope_ok) from chat
                    eq_refl eq_refl)).
  reflexivity.
Defined.

(* ===================================================================== *)
(** ** Further properties of the polling loop *)
(* ===================================================================== *)

Lemma offset_of_range_last (off : Z) (updates : list Update) :
  offset_of_range off updates =
  match last updates with
  | Some u => int_add (Update_UpdateID u) 1
  | None => off
  end.
Proof.
  unfold offset_of_range. revert off.
  induction updates as [|u us IH]; intros off; [done|].
  cbn [fold_left]. rewrite IH. destruct us as [|v us]; [done|].
  rewrite last_cons_cons.
  destruct (last (v :: us)) eqn:Hlast; [done|]. by apply last_None in Hlast.
Qed.

Lemma wrap_int_is_int (z : Z) : is_int (wrap_int z).
Proof.
  unfold is_int, wrap_int, min_int, max_int, int_bits.
  pose proof (Z.mod_pos_bound (z - - 2 ^ (64 - 1)) (2 ^ 64) ltac:(lia)). lia.
Qed.

(** X12. The loop body trusts the batch: it never panics, starts one
    goroutine per update that carries a message, in the order of the
    batch, and leaves as offset the id of the last update plus one,
    computed on [int], whatever the ids before it; an empty batch leaves
    the offset alone.  Nothing else of the bot changes. *)
Theorem range_updates_outcome {context Command : Type}
        (b : @Bot Command) (ctx : context) (updates : list Update) :
  exists b',
    range_updates b ctx updates =
    (Go ctx <$> omap Update_Message updates, Some b') /\
    offset b' = match last updates with
                | Some u => int_add (Update_UpdateID u) 1
                | None => offset b
                end /\
    token b' = token b /\ apiBaseURL b' = apiBaseURL b /\
    client_Timeout b' = client_Timeout b /\
    commandRegistry b' = commandRegistry b.
Proof.
  exists (set_offset b (offset_of_range (offset b) updates)).
  split; [|split; [|done]].
  - rewrite range_updates_eq. f_equal. unfold spawned.
    induction updates as [|u us IH]; [done|]. cbn [omap list_omap].
    destruct (Update_Message u); cbn; by rewrite IH.
  - cbn [offset set_offset]. apply offset_of_range_last.
Qed.

Section Loop.

Context {context Command : Type}.
Variable Unmarshal_updates : string -> res (list Update).
Variable Unmarshal_User : string -> res User.
Implicit Types (b : @Bot Command) (ctx : context) (x : exchange)
         (turns rest : list turn) (t : list (@event context Command)).

Local Abbreviation getUpdates := (getUpdates Unmarshal_updates).
Local Abbreviation polling := (polling Unmarshal_updates).
Local Abbreviation GetMe := (GetMe Unmarshal_User).
Local Abbreviation Start := (Start Unmarshal_updates Unmarshal_User).

Lemma sleeps_app t t' : sleeps (t ++ t') = sleeps t ++ sleeps t'.
Proof. apply omap_app. Qed.

Lemma sleeps_spawned ctx updates :
  sleeps (spawned (Command:=Command) ctx updates) = [].
Proof.
  unfold spawned, sleeps. induction updates as [|u us IH]; [done|].
  cbn [omap list_omap]. by destruct (Update_Message u).
Qed.

(** The trace of one [getUpdates]: no pause, at most one request. *)
Lemma getUpdates_trace b ctx x :
  sleeps (fst (getUpdates b ctx x)) = [] /\
  (length (requested_offsets (fst (getUpdates b ctx x))) <= 1)%nat.
Proof.
  destruct (getUpdates_cases Unmarshal_updates b ctx x)
    as (tg & r & -> & [-> | ->] & _); cbn; split; (done || lia).
Qed.

(** What a run of the loop leaves of the bot, and the bounds on what it
    emits. *)
Lemma polling_invariants b ctx turns t b' r :
  polling b ctx turns = (t, Some (b', r)) ->
  (token b' = token b /\ apiBaseURL b' = apiBaseURL b /\
   client_Timeout b' = client_Timeout b /\
   commandRegistry b' = commandRegistry b) /\
  (is_int (offset b) -> is_int (offset b')) /\
  (length (requested_offsets t) <= default_turns turns)%nat /\
  (length (sleeps t) <= default_turns turns)%nat /\
  Forall (fun seconds => seconds = 3) (sleeps t).
Proof.
  revert b t. induction turns as [|[reason|x ctxErr] turns IH]; intros b t.
  - intros [= <- <- <-].
    split; [done|]. split; [done|]. split; [cbn; lia|]. split; [cbn; lia|].
    constructor.
  - rewrite polling_done. intros [= <- <- <-].
    split; [done|]. split; [done|]. split; [cbn; lia|]. split; [cbn; lia|].
    constructor.
  - change (default_turns (turn_default x ctxErr :: turns))
      with (S (default_turns turns)).
    destruct (getUpdates_trace b ctx x) as [Hsl0 Hreq0].
    destruct (getUpdates_cases Unmarshal_updates b ctx x)
      as (tg & [updates|err] & Hget & _ & _).
    + rewrite (polling_fetch_ok _ _ _ _ _ _ _ _ Hget).
      rewrite Hget in Hsl0, Hreq0. cbn [fst] in Hsl0, Hreq0.
      destruct (bot.polling _ _ ctx turns) as [t' r'] eqn:Hrun.
      cbn [fst snd]. intros [= <- ->].
      destruct (IH _ _ Hrun) as (Hframe & Hint & Hreq & Hsl & Hall).
      cbn [token apiBaseURL client_Timeout commandRegistry offset set_offset]
        in Hframe, Hint.
      split; [exact Hframe|]. split.
      { intros Hb. apply Hint. rewrite offset_of_range_last.
        destruct (last updates); [apply wrap_int_is_int | done]. }
      rewrite !requested_offsets_app, requested_offsets_spawned.
      rewrite !sleeps_app, sleeps_spawned, Hsl0. cbn [app].
      rewrite length_app. split; [lia|]. split; [lia|done].
    + rewrite Hget in Hsl0, Hreq0. cbn [fst] in Hsl0, Hreq0.
      destruct ctxErr as [reason|].
      * rewrite (polling_fetch_cancelled _ _ _ _ _ _ _ _ Hget).
        intros [= <- <- <-]. rewrite Hsl0.
        split; [done|]. split; [done|]. split; [lia|].
        split; [cbn; lia|constructor].
      * rewrite (polling_fetch_failed _ _ _ _ _ _ _ Hget).
        destruct (bot.polling _ _ ctx turns) as [t' r'] eqn:Hrun.
        cbn [fst snd]. intros [= <- ->].
        destruct (IH _ _ Hrun) as (Hframe & Hint & Hreq & Hsl & Hall).
        split; [exact Hframe|]. split; [exact Hint|].
        rewrite requested_offsets_app, sleeps_app, Hsl0. cbn [app].
        change (requested_offsets (Log _ :: Sleep 3 :: t'))
          with (requested_offsets t').
        change (sleeps (Log _ :: Sleep 3 :: t')) with (3 :: sleeps t').
        cbn [length]. rewrite length_app.
        split; [lia|]. split; [lia|]. by constructor.
Qed.

(** Once the loop has returned, turns added after it change nothing. *)
Lemma polling_app_returned b ctx turns rest t b1 e :
  polling b ctx turns = (t, Some (b1, Some e)) ->
  polling b ctx (turns ++ rest) = (t, Some (b1, Some e)).
Proof.
  revert b t. induction turns as [|[reason|x ctxErr] turns IH]; intros b t.
  - discriminate.
  - done.
  - cbn [app].
    destruct (getUpdates_cases Unmarshal_updates b ctx x)
      as (tg & [updates|err] & Hget & _).
    + rewrite !(polling_fetch_ok _ _ _ _ _ _ _ _ Hget).
      destruct (polling_total Unmarshal_updates
                  (set_offset b (offset_of_range (offset b) updates))
                  ctx turns) as (t' & b' & r & Hrun).
      rewrite Hrun. cbn [fst snd]. intros [= <- <- ->].
      by rewrite (IH _ _ Hrun).
    + destruct ctxErr as [reason|].
      * by rewrite !(polling_fetch_cancelled _ _ _ _ _ _ _ _ Hget).
      * rewrite !(polling_fetch_failed _ _ _ _ _ _ _ Hget).
        destruct (polling_total Unmarshal_updates b ctx turns)
          as (t' & b' & r & Hrun).
        rewrite Hrun. cbn [fst snd]. intros [= <- <- ->].
        by rewrite (IH _ _ Hrun).
Qed.

(** The trace of [GetMe]: its request and, on success, one log line. *)
Lemma GetMe_trace b ctx x :
  sleeps (fst (GetMe b ctx x)) = [] /\
  requested_offsets (fst (GetMe b ctx x)) = [].
Proof.
  destruct (GetMe_cases Unmarshal_User b ctx x) as (tg & r & Hme & Hnf).
  split; [|by rewrite Hme; apply requested_offsets_no_fetch].
  clear Hme Hnf tg r. unfold bot.GetMe.
  destruct (makeRequest_cases b ctx "getMe" payload_nil x)
    as (t & r & -> & Ht & _).
  rewrite bind_val.
  destruct r as [resp|err];
    [destruct (Unmarshal_User (Response_Result resp))|];
    destruct Ht as [-> | ->]; reflexivity.
Qed.

(** X13. A run of [Start] is cut at any point without loss: while it has
    not returned, more turns continue the loop from the bot it has
    reached, after the trace it has emitted; once it has returned, turns
    that follow are never looked at. *)
Theorem Start_turns_compose b ctx x turns rest t b1 :
  (Start b ctx x turns = (t, Some (b1, None)) ->
   Start b ctx x (turns ++ rest) =
   (t ++ fst (polling b1 ctx rest), snd (polling b1 ctx rest))) /\
  (forall e,
      Start b ctx x turns = (t, Some (b1, Some e)) ->
      Start b ctx x (turns ++ rest) = (t, Some (b1, Some e))).
Proof.
  split; [apply Start_app|]. intros e.
  destruct (GetMe_cases Unmarshal_User b ctx x) as (tg & [cause|] & Hme & _).
  - by rewrite !(Start_failed _ _ _ _ _ _ _ _ Hme).
  - rewrite !(Start_verified _ _ _ _ _ _ _ Hme).
    destruct (polling_total Unmarshal_updates b ctx turns)
      as (t' & b' & r & Hrun).
    rewrite Hrun. cbn [fst snd]. intros [= <- <- ->].
    by rewrite (polling_app_returned _ _ _ rest _ _ _ Hrun).
Qed.

(** X14. At any turn of a running loop, a context found done by the
    [select] ends [Start] with the context's error: nothing is fetched in
    that turn, the shutdown is logged, and the bot keeps the offset it had
    reached. *)
Theorem Start_done_at_select b ctx x turns reason rest t0 b1 :
  Start b ctx x turns = (t0, Some (b1, None)) ->
  Start b ctx x (turns ++ turn_done reason :: rest) =
  (t0 ++ [Log "Shutdown señalizado, cerrando bot..."],
   Some (b1, Some (context_error reason))) /\
  requested_offsets (fst (Start b ctx x (turns ++ turn_done reason :: rest)))
  = requested_offsets t0.
Proof.
  intros Hrun. rewrite (Start_app _ _ _ _ _ _ _ _ _ Hrun), polling_done.
  split; [done|]. cbn [fst]. rewrite requested_offsets_app.
  change (requested_offsets [Log _]) with (@nil Z). by rewrite app_nil_r.
Qed.


(** X16. [Start] changes nothing of the bot but its offset (token, base
    URL, client timeout and command registry are those it was started
    with), and the offset stays a value of [int]. *)
Theorem Start_keeps_configuration b ctx x turns t b' r :
  Start b ctx x turns = (t, Some (b', r)) ->
  token b' = token b /\ apiBaseURL b' = apiBaseURL b /\
  client_Timeout b' = client_Timeout b /\
  commandRegistry b' = commandRegistry b /\
  (is_int (offset b) -> is_int (offset b')).
Proof.
  destruct (GetMe_cases Unmarshal_User b ctx x) as (tg & [cause|] & Hme & _).
  - rewrite (Start_failed _ _ _ _ _ _ _ _ Hme). intros [= _ <- _]. done.
  - rewrite (Start_verified _ _ _ _ _ _ _ Hme).
    destruct (bot.polling _ _ ctx turns) as [t' r'] eqn:Hrun.
    cbn [fst snd]. intros [= _ ->].
    destruct (polling_invariants _ _ _ _ _ _ Hrun)
      as ((? & ? & ? & ?) & ? & _). done.
Qed.

(** X17. [Start] sends at most one [getUpdates] request per turn that
    takes the [default] branch, pauses at most once per such turn, and
    every pause is of 3 seconds. *)
Theorem Start_one_fetch_per_turn b ctx x turns :
  let t := fst (Start b ctx x turns) in
  (length (requested_offsets t) <= default_turns turns)%nat /\
  (length (sleeps t) <= default_turns turns)%nat /\
  Forall (fun seconds => seconds = 3) (sleeps t).
Proof.
  destruct (GetMe_trace b ctx x) as [Hsl Hreq].
  destruct (GetMe_cases Unmarshal_User b ctx x) as (tg & [cause|] & Hme & _);
    rewrite Hme in Hsl, Hreq; cbn [fst] in Hsl, Hreq.
  - rewrite (Start_failed _ _ _ _ _ _ _ _ Hme). cbn [fst].
    change (requested_offsets (Log "Iniciando bot..." :: tg))
      with (requested_offsets tg).
    change (sleeps (Log "Iniciando bot..." :: tg)) with (sleeps tg).
    rewrite Hsl, Hreq. cbn [length].
    split; [lia|]. split; [lia|constructor].
  - rewrite (Start_verified _ _ _ _ _ _ _ Hme). cbn [fst].
    destruct (polling_total Unmarshal_updates b ctx turns)
      as (t' & b' & r & Hrun).
    destruct (polling_invariants _ _ _ _ _ _ Hrun) as (_ & _ & ? & ? & ?).
    rewrite Hrun. cbn [fst].
    change (requested_offsets (Log "Iniciando bot..." :: ?l))
      with (requested_offsets l).
    change (sleeps (Log "Iniciando bot..." :: ?l)) with (sleeps l).
    rewrite requested_offsets_app, sleeps_app, Hsl, Hreq. cbn [app].
    change (requested_offsets (Log _ :: t')) with (requested_offsets t').
    change (sleeps (Log _ :: t')) with (sleeps t').
    done.
Qed.

End Loop.

Lemma Start_turns_compose_witness :
  let b := NewBot (Command:=string) "test-token" in
  let x0 := exchange_of envelope_ok in
  let turns := [turn_default (exchange_of envelope_ok) None;
                turn_done Canceled] in
  snd (Start sample_Unmarshal_updates sample_Unmarshal_User b tt x0 turns)
  = Some (set_offset b 8, Some (context_error Canceled)) /\
  snd (Start sample_Unmarshal_updates sample_Unmarshal_User b tt x0
             (turns ++ [turn_default (exchange_of envelope_ok) None]))
  = Some (set_offset b 8, Some (context_error Canceled)).
Proof.
  intros b x0 turns. split; [reflexivity|].
  destruct (Start_turns_compose sample_Unmarshal_updates sample_Unmarshal_User
              b tt x0 turns [turn_default (exchange_of envelope_ok) None]
              (fst (Start sample_Unmarshal_updates sample_Unmarshal_User
                          b tt x0 turns))
              (set_offset b 8)) as [_ Hret].
  rewrite (Hret (context_error Canceled) eq_refl). reflexivity.
Defined.

Lemma Start_done_at_select_witness :
  let b := NewBot (Command:=string) "test-token" in
  let x0 := exchange_of envelope_ok in
  let turns := [turn_default (exchange_of envelope_ok) None] in
  snd (Start sample_Unmarshal_updates sample_Unmarshal_User b tt x0 turns)
  = Some (set_offset b 8, None) /\
  snd (Start sample_Unmarshal_updates sample_Unmarshal_User b tt x0
             (turns ++ [turn_done DeadlineExceeded]))
  = Some (set_offset b 8, Some (context_error DeadlineExceeded)).
Proof.
  intros b x0 turns. split; [reflexivity|].
  destruct (Start_done_at_select sample_Unmarshal_updates sample_Unmarshal_User
              b tt x0 turns DeadlineExceeded []
              (fst (Start sample_Unmarshal_updates sample_Unmarshal_User
                          b tt x0 turns))
              (set_offset b 8) eq_refl)
    as [-> _].
  reflexivity.
Defined.


Lemma Start_keeps_configuration_witness :
  let b := SetCommandRegistry (NewBot (Command:=string) "test-token")
             (Some (Register NewCommandRegistry "start" "H"%string)) in
  let x0 := exchange_of envelope_ok in
  let turns := [turn_default (exchange_of envelope_ok) None] in
  exists t b' r,
    Start sample_Unmarshal_updates sample_Unmarshal_User b tt x0 turns
    = (t, Some (b', r)) /\
    offset b' = 8 /\ token b' = "test-token"%string /\
    commandRegistry b' = commandRegistry b.
Proof.
  intros b x0 turns.
  destruct (Start sample_Unmarshal_updates sample_Unmarshal_User b tt x0 turns)
    as [t [[b' r]|]] eqn:Hrun; [|discriminate Hrun].
  exists t, b', r. split; [reflexivity|].
  destruct (Start_keeps_configuration
              sample_Unmarshal_updates sample_Unmarshal_User
              b tt x0 turns t b' r Hrun) as (Htok & _ & _ & Hreg & _).
  split; [|split; [exact Htok | exact Hreg]].
  vm_compute in Hrun. injection Hrun as _ <- _. reflexivity.
Defined.

(* ===================================================================== *)
(** ** Properties of the constructor with functional options *)
(* ===================================================================== *)

Section OptionsProperties.

Context {Command Logger : Type}.
Variable defaultLogger : Logger.
Implicit Types (opts : list (@options.BotOption Command Logger)).

(** X18. Whatever options of the package are given, in whatever number
    and order, the bot that [NewBot] returns has a logger ([WithLogger]
    ignores nil), the token it was given, offset 0, the 70 s client
    timeout and the default base URL. *)
Theorem NewBot_options_invariant (tok : string) opts :
  Forall options.package_option opts ->
  let b := options.NewBot defaultLogger tok opts in
  is_Some (options.logger b) /\
  options.token b = tok /\ options.offset b = 0 /\
  options.client_Timeout b = 70 /\ options.apiBaseURL b = apiURL.
Proof.
  intros Hopts. unfold options.NewBot.
  set (b0 := {| options.token := tok; options.client_Timeout := 70;
                options.offset := 0; options.commandRegistry := None;
                options.apiBaseURL := apiURL;
                options.logger := Some defaultLogger |}).
  assert (Hinv : is_Some (options.logger b0) /\
                 options.token b0 = tok /\ options.offset b0 = 0 /\
                 options.client_Timeout b0 = 70 /\
                 options.apiBaseURL b0 = apiURL) by (cbn; eauto 10).
  clearbody b0. revert b0 Hinv.
  induction Hopts as [|opt opts Hopt _ IH]; intros b0 Hinv; [exact Hinv|].
  cbn [fold_left]. apply IH.
  destruct Hinv as (Hlog & Htok & Hoff & Hto & Hurl).
  destruct Hopt as [[[l|] ->] | [registry ->]]; cbn; eauto 10.
Qed.


End OptionsProperties.

Lemma NewBot_options_invariant_witness :
  let opts := [options.WithLogger (Command:=string) None;
               options.WithCommandRegistry
                 (Some (Register NewCommandRegistry "start" "H"%string));
               options.WithLogger (Some "appLogger"%string)] in
  Forall options.package_option opts /\
  options.logger (options.NewBot "default"%string "test-token" opts)
  = Some "appLogger"%string /\
  options.token (options.NewBot "default"%string "test-token" opts)
  = "test-token"%string.
Proof.
  intros opts.
  assert (Hopts : Forall options.package_option opts).
  { constructor; [left; eexists; reflexivity|].
    constructor; [right; eexists; reflexivity|].
    constructor; [left; eexists; reflexivity|]. constructor. }
  split; [exact Hopts|]. split; [reflexivity|].
  exact (proj1 (proj2 (NewBot_options_invariant "default"%string
                         "test-token" opts Hopts))).
Defined.
